(** * ColonySync build scripts: the two version-identifier types

    A shallow embedding of
      - [scripts/common/version.py]        (class [Version], the dotted,
        four-component port of dotnet's [System.Version]), and
      - [scripts/cli/utils/versioning.py]  (class [SemanticVersion]),
      - [scripts/version.py]               (the three-attribute [Version]),
      - the readers that hand texts of a document to these classes:
        [scripts/common/props_parser.py], [scripts/common/about_parser.py]
        and [read_package_properties] of [scripts/cli/corpus/readers.py],
        on the element tree that [xml.etree.ElementTree] has parsed,
    together with the fragment of the Python object model the two classes
    rely on: exceptions, [int(str)] and [str(int)], [str.split],
    [str.isdigit], the [re] patterns used by [SEMVER_REGEX], and the
    dispatch of the binary operators [==] and [<] over rich-comparison
    methods that may answer [NotImplemented].

    Conventions.
      - A Python [int] is a [Z] (unbounded, two's complement for the bit
        operators, which is what [Z.land], [Z.lor] and [Z.shiftl] compute);
        the interpreter's optional cap on the number of digits that [int()]
        and [str()] convert is left out.
      - A Python [str] is a [string]; the character classes below are the
        ASCII ones, so the model speaks about ASCII text.
      - A call that may raise returns a [result]; [None] is the [None] of
        an [option]. *)

From Stdlib Require Import ZArith Ascii String List Bool Lia.
From Stdlib Require Import DecimalString DecimalZ DecimalFacts.
From stdpp Require Import base option gmap strings.

Local Open Scope string_scope.
Local Open Scope Z_scope.

(** ** The Python fragment *)

Module Py.

(** The exceptions that the modelled code can raise. *)
Inductive exn : Set :=
| ValueError
| TypeError
| IndexError
| KeyError
| MalformedVersionError.

#[global] Instance exn_eq_dec : EqDecision exn.
Proof. solve_decision. Defined.

Inductive result (A : Type) : Type :=
| Ok (a : A)
| Raise (e : exn).
Arguments Ok {A} a.
Arguments Raise {A} e.

Definition bind {A B : Type} (m : result A) (k : A -> result B) : result B :=
  match m with
  | Ok a => k a
  | Raise e => Raise e
  end.

(** [try: body except exc: handler] *)
Definition try_except {A : Type} (body : result A) (exc : exn)
    (handler : result A) : result A :=
  match body with
  | Ok a => Ok a
  | Raise e => if decide (e = exc) then handler else Raise e
  end.

(** *** Characters and strings *)

Definition char_between (lo hi c : ascii) : bool :=
  (nat_of_ascii lo <=? nat_of_ascii c)%nat && (nat_of_ascii c <=? nat_of_ascii hi)%nat.

Definition is_digit (c : ascii) : bool := char_between "0" "9" c.

Definition is_alpha (c : ascii) : bool :=
  char_between "a" "z" c || char_between "A" "Z" c.

(** The white space that [int()] skips around an ASCII literal: TAB, LF,
    VT, FF, CR and the blank. *)
Definition is_space (c : ascii) : bool :=
  char_between "009" "013" c || Ascii.eqb c " ".

(** The truth value of a [str]: empty strings are false. *)
Definition str_truthy (s : string) : bool :=
  match s with
  | EmptyString => false
  | String _ _ => true
  end.

(** [needle in hay] on two strings. *)
Definition str_contains (needle hay : string) : bool :=
  match String.index 0 needle hay with
  | Some _ => true
  | None => false
  end.

(** [s.split(sep)] for a one-character separator: never the empty list,
    [n] separators give [n + 1] pieces. *)
Fixpoint split (sep : ascii) (s : string) : list string :=
  match s with
  | EmptyString => [EmptyString]
  | String c s' =>
      if Ascii.eqb c sep then EmptyString :: split sep s'
      else match split sep s' with
           | piece :: pieces => String c piece :: pieces
           | [] => [String c EmptyString]
           end
  end.

(** [s.isdigit()]: true when [s] is non-empty and made of digits only.
    This is the method on ASCII text, where the digits are [0] to [9]. *)
Fixpoint all_digits (s : string) : bool :=
  match s with
  | EmptyString => true
  | String c s' => is_digit c && all_digits s'
  end.

Definition isdigit (s : string) : bool := str_truthy s && all_digits s.

(** [seq[i]] on a list. *)
Definition getitem {A : Type} (l : list A) (i : nat) : result A :=
  match l !! i with
  | Some a => Ok a
  | None => Raise IndexError
  end.

(** *** [str(int)] and [int(str)] *)

(** [str(n)], also what an f-string writes for [{n}]. *)
Definition str_of_int (n : Z) : string :=
  NilZero.string_of_int (Z.to_int n).

Fixpoint lstrip (s : string) : string :=
  match s with
  | EmptyString => EmptyString
  | String c s' => if is_space c then lstrip s' else s
  end.

Fixpoint rstrip (s : string) : string :=
  match s with
  | EmptyString => EmptyString
  | String c s' =>
      match rstrip s' with
      | EmptyString => if is_space c then EmptyString else String c EmptyString
      | r => String c r
      end
  end.

(** The digits of a decimal literal: digit groups separated by single
    underscores; the answer is the digit string with the underscores
    removed, [None] when the literal is ill-formed. *)
Fixpoint literal_digits (after_digit : bool) (s : string) : option string :=
  match s with
  | EmptyString => if after_digit then Some EmptyString else None
  | String c s' =>
      if is_digit c then String c <$> literal_digits true s'
      else if Ascii.eqb c "_" && after_digit then literal_digits false s'
      else None
  end.

Definition unsigned_literal (s : string) : option Z :=
  digits ← literal_digits false s;
  Z.of_uint <$> NilEmpty.uint_of_string digits.

(** [int(s)] in base ten: surrounding white space is dropped, one sign
    is allowed, then comes a decimal literal.  This is the conversion of
    ASCII text, with the digits [0] to [9]. *)
Definition int_of_str (s : string) : result Z :=
  let body := rstrip (lstrip s) in
  let signed :=
    match body with
    | String "-" rest => Z.opp <$> unsigned_literal rest
    | String "+" rest => unsigned_literal rest
    | _ => unsigned_literal body
    end in
  match signed with
  | Some n => Ok n
  | None => Raise ValueError
  end.

(** [int(x)] where [x] is a [str] or [None]. *)
Definition int_of (x : option string) : result Z :=
  match x with
  | Some s => int_of_str s
  | None => Raise TypeError
  end.

(** *** Dictionaries with [str] keys; a value is a [str] or [None] *)

Definition dict := gmap string (option string).

(** [d[key]] *)
Definition dict_getitem (d : dict) (key : string) : result (option string) :=
  match d !! key with
  | Some v => Ok v
  | None => Raise KeyError
  end.

(** [d.get(key, default)]: the default is used only when the key is
    missing, not when the key is bound to [None]. *)
Definition dict_get (d : dict) (key : string) (default : option string)
    : option string :=
  match d !! key with
  | Some v => v
  | None => default
  end.

(** *** Objects and rich comparisons *)

(** The objects that meet in a comparison: [None], [int]s, [str]s, and the
    instances of the two version classes ([V] for
    [common.version.Version], [S] for [cli.utils.versioning.SemanticVersion]).
    The universe is closed: the first three answer [NotImplemented] to
    every comparison with a version, and an object of a class with
    comparison methods of its own (the [Version] of [scripts/version.py]
    is one) is not among them. *)
Inductive object (V S : Type) : Type :=
| PyNone
| PyInt (n : Z)
| PyStr (s : string)
| Dotted (v : V)
| Semantic (v : S).
Arguments PyNone {V S}.
Arguments PyInt {V S} n.
Arguments PyStr {V S} s.
Arguments Dotted {V S} v.
Arguments Semantic {V S} v.

(** What a rich-comparison method returns. *)
Inductive answer : Set :=
| Bool (b : bool)
| NotImplemented.

End Py.

Import Py.

Notation "'let*' x ':=' m 'in' k" := (Py.bind m (fun x => k))
  (at level 10, x name, m at level 100, k at level 200).

(** ** [scripts/common/version.py] *)

Module Version.

(** The frozen dataclass. *)
Record t : Set := mk {
  major : Z;
  minor : Z;
  build : Z;
  revision : Z
}.

(** The generated constructor, with the defaults of the field list:
    [minor = 0], [build = -1], [revision = -1]. *)
Definition init (major : Z) (minor build revision : option Z) : t :=
  mk major (default 0 minor) (default (-1) build) (default (-1) revision).

Definition parse (version : string) : result t :=
  (* [if "+" or "-" in version:]  parses as  ["+" or ("-" in version)] *)
  if str_truthy "+" || str_contains "-" version then
    Raise MalformedVersionError
  else
    let segments := split "." version in
    let total_segments := length segments in
    if (total_segments =? 0)%nat || (4 <? total_segments)%nat then
      Raise MalformedVersionError
    else if (total_segments =? 1)%nat then
      let* s0 := getitem segments 0 in let* a := int_of_str s0 in
      Ok (init a None None None)
    else if (total_segments =? 2)%nat then
      let* s0 := getitem segments 0 in let* a := int_of_str s0 in
      let* s1 := getitem segments 1 in let* b := int_of_str s1 in
      Ok (init a (Some b) None None)
    else if (total_segments =? 3)%nat then
      let* s0 := getitem segments 0 in let* a := int_of_str s0 in
      let* s1 := getitem segments 1 in let* b := int_of_str s1 in
      let* s2 := getitem segments 2 in let* c := int_of_str s2 in
      Ok (init a (Some b) (Some c) None)
    else
      let* s0 := getitem segments 0 in let* a := int_of_str s0 in
      let* s1 := getitem segments 1 in let* b := int_of_str s1 in
      let* s2 := getitem segments 2 in let* c := int_of_str s2 in
      let* s3 := getitem segments 3 in let* d := int_of_str s3 in
      Ok (init a (Some b) (Some c) (Some d)).

Definition clone (self : t) : t :=
  init (major self) (Some (minor self)) (Some (build self)) (Some (revision self)).

Definition to_string (self : t) (field_count : Z) : result string :=
  if (field_count <=? 0) || (4 <? field_count) then Raise ValueError
  else if field_count =? 1 then
    Ok (str_of_int (major self))
  else if field_count =? 2 then
    Ok (str_of_int (major self) +:+ "." +:+ str_of_int (minor self))
  else if field_count =? 3 then
    Ok (str_of_int (major self) +:+ "." +:+ str_of_int (minor self)
        +:+ "." +:+ str_of_int (build self))
  else
    Ok (str_of_int (major self) +:+ "." +:+ str_of_int (minor self)
        +:+ "." +:+ str_of_int (build self) +:+ "." +:+ str_of_int (revision self)).

(** The three [if]s are not chained: each later one overwrites [fields]. *)
Definition __str__ (self : t) : result string :=
  let fields := 1 in
  let fields := if 0 <? revision self then 4 else fields in
  let fields := if 0 <? build self then 3 else fields in
  let fields := if 0 <? minor self then 2 else fields in
  to_string self fields.

Definition __eq__ {S : Type} (self : t) (other : object t S) : result answer :=
  match other with
  | Dotted other =>
      Ok (Bool ((major self =? major other) && (minor self =? minor other)
                && (build self =? build other)
                && (revision self =? revision other)))
  | _ => Ok (Bool false)
  end.

Definition __lt__ {S : Type} (self : t) (other : object t S) : result answer :=
  match other with
  | Dotted other =>
      if major self <? major other then Ok (Bool true)
      else if minor self <? minor other then Ok (Bool true)
      else if build self <? build other then Ok (Bool true)
      else if revision self <? revision other then Ok (Bool true)
      else Ok (Bool false)
  | _ => Raise ValueError
  end.

Definition __le__ {S : Type} (self : t) (other : object t S) : result answer :=
  match other with
  | Dotted other =>
      if major self <=? major other then Ok (Bool true)
      else if minor self <=? minor other then Ok (Bool true)
      else if build self <=? build other then Ok (Bool true)
      else if revision self <=? revision other then Ok (Bool true)
      else Ok (Bool false)
  | _ => Raise ValueError
  end.

Definition __hash__ (self : t) : Z :=
  let accumulator := 0 in
  let accumulator := Z.lor accumulator (Z.shiftl (Z.land (major self) 0x0000000F) 28) in
  let accumulator := Z.lor accumulator (Z.shiftl (Z.land (minor self) 0x000000FF) 20) in
  let accumulator := Z.lor accumulator (Z.shiftl (Z.land (build self) 0x00000FFF) 12) in
  let accumulator := Z.lor accumulator (Z.land (revision self) 0x00000FFF) in
  accumulator.

End Version.

(** ** The [re] patterns that [SEMVER_REGEX] is built from *)

Module Re.

Inductive pattern : Type :=
| Lit (c : ascii)                      (* a literal, or an escaped, character *)
| Class (cls : ascii -> bool)          (* \d, [1-9], [\w.-] *)
| Seq (p q : pattern)                  (* pq *)
| Alt (p q : pattern)                  (* p|q, the left branch first *)
| Star (cls : ascii -> bool)           (* c*, greedy *)
| Plus (cls : ascii -> bool)           (* c+, greedy *)
| Opt (p : pattern)                    (* p?, greedy *)
| Group (p : pattern)                  (* (p), a group without a name *)
| Named (name : string) (p : pattern)  (* (?P<name>p) *)
| Bol                                  (* ^ *)
| Eol.                                 (* $ *)

(** [\d], on ASCII text *)
Definition digit : ascii -> bool := is_digit.

(** [[1-9]] *)
Definition nonzero_digit : ascii -> bool := char_between "1" "9".

(** [\w], on ASCII text *)
Definition word (c : ascii) : bool :=
  is_alpha c || is_digit c || Ascii.eqb c "_".

(** [[\w.-]] *)
Definition word_dot_dash (c : ascii) : bool :=
  word c || Ascii.eqb c "." || Ascii.eqb c "-".

(** The text captured so far by the named groups that took part. *)
Definition captures := gmap string string.

(** What is left to match: the position reached, the rest of the subject
    from there, and the captures. *)
Definition cont := nat -> string -> captures -> option captures.

(** Greedy repetition of a class: as many characters as possible, giving
    them back one at a time while the continuation fails. *)
Fixpoint star (cls : ascii -> bool) (k : cont) (pos : nat) (rest : string)
    (caps : captures) : option captures :=
  match rest with
  | String c rest' =>
      if cls c then
        match star cls k (S pos) rest' caps with
        | Some found => Some found
        | None => k pos rest caps
        end
      else k pos rest caps
  | EmptyString => k pos rest caps
  end.

(** The backtracking matcher. *)
Fixpoint run (p : pattern) (k : cont) (pos : nat) (rest : string)
    (caps : captures) {struct p} : option captures :=
  match p with
  | Lit c =>
      match rest with
      | String c' rest' => if Ascii.eqb c' c then k (S pos) rest' caps else None
      | EmptyString => None
      end
  | Class cls =>
      match rest with
      | String c' rest' => if cls c' then k (S pos) rest' caps else None
      | EmptyString => None
      end
  | Seq p q => run p (run q k) pos rest caps
  | Alt p q =>
      match run p k pos rest caps with
      | Some found => Some found
      | None => run q k pos rest caps
      end
  | Star cls => star cls k pos rest caps
  | Plus cls =>
      match rest with
      | String c' rest' => if cls c' then star cls k (S pos) rest' caps else None
      | EmptyString => None
      end
  | Opt p =>
      match run p k pos rest caps with
      | Some found => Some found
      | None => k pos rest caps
      end
  | Group p => run p k pos rest caps
  | Named name p =>
      run p (fun pos' rest' caps' =>
               k pos' rest' (<[name := String.substring 0 (pos' - pos) rest]> caps'))
          pos rest caps
  | Bol => if (pos =? 0)%nat then k pos rest caps else None
  | Eol =>
      (* at the end, or just before a newline that ends the subject *)
      match rest with
      | EmptyString => k pos rest caps
      | String "010" EmptyString => k pos rest caps
      | _ => None
      end
  end.

(** [pattern.match(subject)]: anchored at the start, free at the end. *)
Definition match_ (p : pattern) (subject : string) : option captures :=
  run p (fun _ _ caps => Some caps) 0%nat subject ∅.

(** The names of the named groups ([pattern.groupindex]). *)
Fixpoint group_names (p : pattern) : list string :=
  match p with
  | Seq p q | Alt p q => group_names p ++ group_names q
  | Opt p | Group p => group_names p
  | Named name p => name :: group_names p
  | _ => []
  end.

(** [match.groupdict()]: every named group of the pattern, bound to its
    text, or to [None] when the group did not take part. *)
Definition groupdict (p : pattern) (caps : captures) : dict :=
  list_to_map ((fun name => (name, caps !! name)) <$> group_names p).

End Re.

(** ** [scripts/cli/utils/versioning.py] *)

Module SemanticVersion.

Import Re.

Record t : Set := mk {
  major : Z;
  minor : Z;
  patch : Z;
  pre_release : option string;
  build_metadata : option string
}.

Local Infix "⊙" := Seq (at level 60, right associativity).

(** [0|[1-9]\d*] *)
Definition number : pattern := Alt (Lit "0") (Class nonzero_digit ⊙ Star digit).

Definition SEMVER_REGEX : pattern :=
  Bol ⊙ Named "major" number ⊙ Lit "." ⊙ Named "minor" number ⊙
  Opt (Group (Lit "." ⊙ Named "patch" number)) ⊙
  Opt (Group (Lit "-" ⊙ Named "pre_release" (Plus word_dot_dash))) ⊙
  Opt (Group (Lit "+" ⊙ Named "build_metadata" (Plus word_dot_dash))) ⊙
  Eol.

(** [__init__], on the arguments [parse_version] passes (each a [str] or
    [None]); the defaults of the signature apply to omitted arguments only,
    and [parse_version] omits none. *)
Definition init (major minor patch pre_release build_metadata : option string)
    : result t :=
  let* major := int_of major in
  let* minor := int_of minor in
  let* patch := int_of patch in
  Ok (mk major minor patch pre_release build_metadata).

Definition parse_version (version_str : string) : result t :=
  match match_ SEMVER_REGEX version_str with
  | None => Raise ValueError
  | Some found =>
      let groups := groupdict SEMVER_REGEX found in
      let* major := dict_getitem groups "major" in
      let* minor := dict_getitem groups "minor" in
      init major minor
           (dict_get groups "patch" (Some "0"))
           (dict_get groups "pre_release" None)
           (dict_get groups "build_metadata" None)
  end.

Definition __eq__ {V : Type} (self : t) (other : object V t) : result answer :=
  match other with
  | Semantic other =>
      Ok (Bool ((major self =? major other) && (minor self =? minor other)
                && (patch self =? patch other)
                && bool_decide (pre_release self = pre_release other)))
  | _ => Ok NotImplemented
  end.

(** One token of a pre-release: [int(sub) if sub.isdigit() else sub]. *)
Inductive token : Set :=
| TInt (n : Z)
| TStr (s : string).

Definition token_of (sub : string) : result token :=
  if isdigit sub then let* n := int_of_str sub in Ok (TInt n)
  else Ok (TStr sub).

(** [<] between two tokens: defined on two [int]s and on two [str]s. *)
Definition token_lt (a b : token) : result bool :=
  match a, b with
  | TInt m, TInt n => Ok (m <? n)
  | TStr s, TStr u => Ok (String.ltb s u)
  | _, _ => Raise TypeError
  end.

(** The [for] loop of [_compare_pre_release] over the zipped tokens;
    [otherwise] is what the statement after the loop returns. *)
Fixpoint compare_tokens (pairs : list (string * string)) (otherwise : Z)
    : result Z :=
  match pairs with
  | [] => Ok otherwise
  | (sub1, sub2) :: pairs' =>
      let body : result (option Z) :=
        let* a := token_of sub1 in
        let* b := token_of sub2 in
        let* result := token_lt a b in
        if result then Ok (Some (-1))
        else if Z.b2z result >? 0 then Ok (Some 1)
        else Ok None in
      let* returned := try_except body ValueError (Ok None) in
      match returned with
      | Some r => Ok r
      | None => compare_tokens pairs' otherwise
      end
  end.

Definition _compare_pre_release (pr1 pr2 : option string) : result Z :=
  match pr1, pr2 with
  | None, Some s2 => Ok (if str_truthy s2 then 1 else 0)
  | None, None => Ok 0
  | Some _, None => Ok (-1)
  | Some s1, Some s2 =>
      let pr1_parts := split "." s1 in
      let pr2_parts := split "." s2 in
      compare_tokens (zip pr1_parts pr2_parts)
                     (Z.of_nat (length pr1_parts) - Z.of_nat (length pr2_parts))
  end.

(** [<] on two triples of [int]s. *)
Definition triple_lt (a b : Z * Z * Z) : bool :=
  let '(a1, a2, a3) := a in
  let '(b1, b2, b3) := b in
  if negb (a1 =? b1) then a1 <? b1
  else if negb (a2 =? b2) then a2 <? b2
  else a3 <? b3.

Definition triple_ne (a b : Z * Z * Z) : bool :=
  let '(a1, a2, a3) := a in
  let '(b1, b2, b3) := b in
  negb ((a1 =? b1) && (a2 =? b2) && (a3 =? b3)).

Definition __lt__ {V : Type} (self : t) (other : object V t) : result answer :=
  match other with
  | Semantic other =>
      let mine := (major self, minor self, patch self) in
      let theirs := (major other, minor other, patch other) in
      if triple_ne mine theirs then Ok (Bool (triple_lt mine theirs))
      else
        let* c := _compare_pre_release (pre_release self) (pre_release other) in
        Ok (Bool (c <? 0))
  | _ => Ok NotImplemented
  end.

(** [if x:] on an optional [str] runs the body for a non-empty string
    only; [body] receives that string. *)
Definition if_given (x : option string) (body : string -> string)
    (skip : string) : string :=
  match x with
  | Some s => if str_truthy s then body s else skip
  | None => skip
  end.

Definition __str__ (self : t) : string :=
  let version :=
    str_of_int (major self) +:+ "." +:+ str_of_int (minor self)
    +:+ "." +:+ str_of_int (patch self) in
  let version :=
    if_given (pre_release self) (fun pre => version +:+ "-" +:+ pre) version in
  let version :=
    if_given (build_metadata self) (fun meta => version +:+ "+" +:+ meta) version in
  version.

End SemanticVersion.

(** ** The operators [==], [!=] and [<] *)

Module Operators.

Definition value : Type := object Version.t SemanticVersion.t.

(** [type(self).__eq__(self, other)]: the two classes bring their own,
    [int], [str] and [None] answer for their own kind only. *)
Definition __eq__ (self other : value) : result answer :=
  match self with
  | Dotted v => Version.__eq__ v other
  | Semantic v => SemanticVersion.__eq__ v other
  | PyInt m =>
      match other with PyInt n => Ok (Bool (m =? n)) | _ => Ok NotImplemented end
  | PyStr s =>
      match other with PyStr u => Ok (Bool (String.eqb s u)) | _ => Ok NotImplemented end
  | PyNone =>
      match other with PyNone => Ok (Bool true) | _ => Ok NotImplemented end
  end.

(** No class here defines [__ne__]: it is the inherited one, which
    inverts what [__eq__] answers. *)
Definition __ne__ (self other : value) : result answer :=
  let* r := __eq__ self other in
  match r with
  | Bool b => Ok (Bool (negb b))
  | NotImplemented => Ok NotImplemented
  end.

(** A binary comparison: the method of the left operand, then the
    reflected method of the right operand, then the fallback.  (The rule
    that lets a subclass of the left operand's class go first does not
    apply: no class here derives from another.) *)
Definition binary (method reflected : value -> value -> result answer)
    (fallback : result bool) (a b : value) : result bool :=
  let* r := method a b in
  match r with
  | Bool x => Ok x
  | NotImplemented =>
      let* r' := reflected b a in
      match r' with
      | Bool x => Ok x
      | NotImplemented => fallback
      end
  end.

(** [a == b]; the fallback is [a is b], reached only when both methods
    answer [NotImplemented], that is for operands of two different
    classes, which are two different objects. *)
Definition eq : value -> value -> result bool := binary __eq__ __eq__ (Ok false).

(** [a != b]; the fallback is [a is not b]. *)
Definition ne : value -> value -> result bool := binary __ne__ __ne__ (Ok true).

Definition __lt__ (self other : value) : result answer :=
  match self with
  | Dotted v => Version.__lt__ v other
  | Semantic v => SemanticVersion.__lt__ v other
  | PyInt m =>
      match other with PyInt n => Ok (Bool (m <? n)) | _ => Ok NotImplemented end
  | PyStr s =>
      match other with PyStr u => Ok (Bool (String.ltb s u)) | _ => Ok NotImplemented end
  | PyNone => Ok NotImplemented
  end.

(** What [functools.total_ordering] adds to [SemanticVersion], from the
    [__lt__] of the class. *)

(** [__gt__]: [not op_result and self != other] *)
Definition _gt_from_lt (self : SemanticVersion.t) (other : value)
    : result answer :=
  let* op_result := SemanticVersion.__lt__ self other in
  match op_result with
  | NotImplemented => Ok NotImplemented
  | Bool r =>
      if negb r then let* d := ne (Semantic self) other in Ok (Bool d)
      else Ok (Bool false)
  end.

(** [__le__]: [op_result or self == other] *)
Definition _le_from_lt (self : SemanticVersion.t) (other : value)
    : result answer :=
  let* op_result := SemanticVersion.__lt__ self other in
  match op_result with
  | NotImplemented => Ok NotImplemented
  | Bool r =>
      if r then Ok (Bool true)
      else let* e := eq (Semantic self) other in Ok (Bool e)
  end.

(** [__ge__]: [not op_result] *)
Definition _ge_from_lt (self : SemanticVersion.t) (other : value)
    : result answer :=
  let* op_result := SemanticVersion.__lt__ self other in
  match op_result with
  | NotImplemented => Ok NotImplemented
  | Bool r => Ok (Bool (negb r))
  end.

(** [Version] defines [__lt__] and [__le__] only, its [__gt__] and
    [__ge__] are the inherited ones. *)
Definition __le__ (self other : value) : result answer :=
  match self with
  | Dotted v => Version.__le__ v other
  | Semantic v => _le_from_lt v other
  | PyInt m =>
      match other with PyInt n => Ok (Bool (m <=? n)) | _ => Ok NotImplemented end
  | PyStr s =>
      match other with PyStr u => Ok (Bool (String.leb s u)) | _ => Ok NotImplemented end
  | PyNone => Ok NotImplemented
  end.

Definition __gt__ (self other : value) : result answer :=
  match self with
  | Dotted _ => Ok NotImplemented
  | Semantic v => _gt_from_lt v other
  | PyInt m =>
      match other with PyInt n => Ok (Bool (n <? m)) | _ => Ok NotImplemented end
  | PyStr s =>
      match other with PyStr u => Ok (Bool (String.ltb u s)) | _ => Ok NotImplemented end
  | PyNone => Ok NotImplemented
  end.

Definition __ge__ (self other : value) : result answer :=
  match self with
  | Dotted _ => Ok NotImplemented
  | Semantic v => _ge_from_lt v other
  | PyInt m =>
      match other with PyInt n => Ok (Bool (n <=? m)) | _ => Ok NotImplemented end
  | PyStr s =>
      match other with PyStr u => Ok (Bool (String.leb u s)) | _ => Ok NotImplemented end
  | PyNone => Ok NotImplemented
  end.

(** [a < b], [a <= b], [a > b], [a >= b]; when neither side answers,
    [TypeError]. *)
Definition lt : value -> value -> result bool :=
  binary __lt__ __gt__ (Raise TypeError).

Definition le : value -> value -> result bool :=
  binary __le__ __ge__ (Raise TypeError).

Definition gt : value -> value -> result bool :=
  binary __gt__ __lt__ (Raise TypeError).

Definition ge : value -> value -> result bool :=
  binary __ge__ __le__ (Raise TypeError).

(** The class of an object, as far as the version types go; [Other] is
    the class of [None], of the [int]s and of the [str]s. *)
Inductive kind : Set := DottedVersion | SemVer | Other.

Definition kind_of (x : value) : kind :=
  match x with
  | Dotted _ => DottedVersion
  | Semantic _ => SemVer
  | _ => Other
  end.

#[global] Instance kind_eq_dec : EqDecision kind.
Proof. solve_decision. Defined.

End Operators.

(** ** Vocabulary for the statements *)

Module Props.

(** A decimal numeral without a leading zero: what [0|[1-9]\d*] accepts. *)
Definition numeral (s : string) : bool :=
  match s with
  | EmptyString => false
  | String c s' =>
      if Ascii.eqb c "0" then negb (str_truthy s')
      else Re.nonzero_digit c && all_digits s'
  end.

(** The same version with another [build_metadata]. *)
Definition with_build_metadata (v : SemanticVersion.t) (meta : option string)
    : SemanticVersion.t :=
  SemanticVersion.mk (SemanticVersion.major v) (SemanticVersion.minor v)
    (SemanticVersion.patch v) (SemanticVersion.pre_release v) meta.

(** The four components of a dotted version differ somewhere to the
    advantage of the left one. *)
Definition some_component_smaller (a b : Version.t) : Prop :=
  Version.major a < Version.major b \/ Version.minor a < Version.minor b \/
  Version.build a < Version.build b \/ Version.revision a < Version.revision b.

(** The exception an ordering between operands of two different kinds
    ends in; [receiver] is the operand whose [__lt__] or [__le__] gets the
    other one: the left operand of [<] and [<=], the right operand of [>]
    and [>=].  The [__lt__] and [__le__] of [Version] raise [ValueError]
    themselves, every other receiver answers [NotImplemented]. *)
Definition mismatch_error (receiver : Operators.value) : exn :=
  match receiver with
  | Dotted _ => ValueError
  | _ => TypeError
  end.

(** The next character, if any, is not a digit. *)
Definition no_digit_ahead (rest : string) : bool :=
  match rest with
  | EmptyString => true
  | String c _ => negb (is_digit c)
  end.

End Props.

Import Props.

(** ** [scripts/version.py] *)

Module Scripts.
Module Version.

(** The class keeps three attributes and changes them in place; a method
    that changes the object returns its new state. *)
Record t : Set := mk {
  major : Z;
  minor : Z;
  patch : Z
}.

(** [map(int, parts)], consumed to the end. *)
Fixpoint map_int (parts : list string) : result (list Z) :=
  match parts with
  | [] => Ok []
  | part :: parts' =>
      let* n := int_of_str part in
      let* ns := map_int parts' in
      Ok (n :: ns)
  end.

(** [__init__]; unpacking anything but three values is a [ValueError]. *)
Definition init (version : string) : result t :=
  let parts := split "." version in
  if negb (length parts =? 3)%nat || negb (forallb isdigit parts) then
    Raise ValueError
  else
    let* values := map_int parts in
    match values with
    | [a; b; c] => Ok (mk a b c)
    | _ => Raise ValueError
    end.

Definition __str__ (self : t) : string :=
  str_of_int (major self) +:+ "." +:+ str_of_int (minor self)
  +:+ "." +:+ str_of_int (patch self).

(** The comparison methods read the three attributes of [other] without
    asking for its class; they are modelled on two objects of the
    class. *)
Definition __eq__ (self other : t) : bool :=
  (major self =? major other) && (minor self =? minor other)
  && (patch self =? patch other).

Definition __lt__ (self other : t) : bool :=
  SemanticVersion.triple_lt (major self, minor self, patch self)
                            (major other, minor other, patch other).

(** [self < other or self == other] *)
Definition __le__ (self other : t) : bool :=
  __lt__ self other || __eq__ self other.

(** [not (self <= other)] *)
Definition __gt__ (self other : t) : bool := negb (__le__ self other).

(** [not (self < other)] *)
Definition __ge__ (self other : t) : bool := negb (__lt__ self other).

Definition increment (self : t) (part : string) : result t :=
  if String.eqb part "major" then Ok (mk (major self + 1) 0 0)
  else if String.eqb part "minor" then Ok (mk (major self) (minor self + 1) 0)
  else if String.eqb part "patch" then Ok (mk (major self) (minor self) (patch self + 1))
  else Raise ValueError.

End Version.
End Scripts.

(** ** [xml.etree.ElementTree], as far as the readers below use it *)

Module ET.

(** An element of a parsed document. *)
#[warnings="-register-all"]
Inductive Element : Type :=
| mk (tag : string) (attrib : gmap string string) (text : option string)
     (children : list Element).

Definition tag (e : Element) : string :=
  match e with mk t _ _ _ => t end.

Definition attrib (e : Element) : gmap string string :=
  match e with mk _ a _ _ => a end.

Definition text (e : Element) : option string :=
  match e with mk _ _ x _ => x end.

Definition children (e : Element) : list Element :=
  match e with mk _ _ _ l => l end.

(** [element.attrib[key]] *)
Definition attrib_getitem (e : Element) (key : string) : result string :=
  match attrib e !! key with
  | Some value => Ok value
  | None => Raise KeyError
  end.

(** One step of a path: the children that carry the tag, in document
    order. *)
Definition step (name : string) (nodes : list Element) : list Element :=
  flat_map (fun node => List.filter (fun child => String.eqb (tag child) name)
                                    (children node))
           nodes.

Fixpoint walk (names : list string) (nodes : list Element) : list Element :=
  match names with
  | [] => nodes
  | name :: names' => walk names' (step name nodes)
  end.

(** [root.iterfind(path)] for a path of plain tags separated by [/]. *)
Definition iterfind (root : Element) (path : string) : list Element :=
  walk (split "/" path) [root].

End ET.

(** ** [scripts/common/props_parser.py] *)

Module PropsParser.

(** [parse_build_props], from the root that [ET.parse(file).getroot()]
    gives. *)
Definition parse_build_props (root : ET.Element) : gmap string (option string) :=
  foldl (fun container element => <[ET.tag element := ET.text element]> container)
        ∅ (ET.iterfind root "PropertyGroup").

(** The loop of [parse_packages_props]: the assignment evaluates its
    right-hand side, then the key. *)
Fixpoint collect (elements : list ET.Element) (container : gmap string Version.t)
    : result (gmap string Version.t) :=
  match elements with
  | [] => Ok container
  | element :: elements' =>
      let* text := ET.attrib_getitem element "Version" in
      let* version := Version.parse text in
      let* name := ET.attrib_getitem element "Include" in
      collect elements' (<[name := version]> container)
  end.

Definition parse_packages_props (root : ET.Element)
    : result (gmap string Version.t) :=
  collect (ET.iterfind root "ItemGroup/PackageVersion") ∅.

End PropsParser.

(** ** [scripts/cli/corpus/package.py] and [scripts/cli/corpus/readers.py] *)

Module Package.

#[warnings="-register-all"]
Inductive t : Type :=
| mk (name : string) (version : SemanticVersion.t) (file_names : gset string)
     (dependencies : list t).

Definition name (p : t) : string :=
  match p with mk n _ _ _ => n end.

Definition version (p : t) : SemanticVersion.t :=
  match p with mk _ v _ _ => v end.

Definition file_names (p : t) : gset string :=
  match p with mk _ _ f _ => f end.

Definition dependencies (p : t) : list t :=
  match p with mk _ _ _ d => d end.

(** [Package(name, version)]: the two factories give an empty set and an
    empty list. *)
Definition init (name : string) (version : SemanticVersion.t) : t :=
  mk name version ∅ [].

End Package.

Module Readers.

(** The loop of [read_package_properties]: the arguments of [Package]
    are evaluated from left to right. *)
Fixpoint collect (elements : list ET.Element) (container : list Package.t)
    : result (list Package.t) :=
  match elements with
  | [] => Ok container
  | element :: elements' =>
      let* name := ET.attrib_getitem element "Include" in
      let* text := ET.attrib_getitem element "Version" in
      let* version := SemanticVersion.parse_version text in
      collect elements' (container ++ [Package.init name version])
  end.

(** The body of [read_package_properties] from [root = tree.getroot()]
    on.  Opening the file and parsing it come before and are not part of
    this function: what they may raise is outside of it. *)
Definition read_package_properties (root : ET.Element) : result (list Package.t) :=
  collect (ET.iterfind root "ItemGroup/PackageVersion") [].

End Readers.

(** ** [scripts/common/about_parser.py] *)

Module ModDependency.

Record t : Set := mk {
  id : option string;
  name : option string;
  download_url : option string;
  steam_workshop_url : option string
}.

End ModDependency.

Module ModMetaData.

Record t : Set := mk {
  id : option string;
  name : option string;
  version : Version.t;
  url : option string;
  description : option string;
  supported_versions : list Version.t;
  authors : list (option string);
  dependencies : list ModDependency.t
}.

End ModMetaData.

Module AboutParser.

(** The body of the loop of [_parse_dependency]: one child, matched on
    its tag. *)
Definition dependency_case (d : ModDependency.t) (child : ET.Element)
    : ModDependency.t :=
  let '(ModDependency.mk dependency_id dependency_name dependency_download_url
                         dependency_steam_workshop_url) := d in
  if String.eqb (ET.tag child) "id" then
    ModDependency.mk (ET.text child) dependency_name dependency_download_url
                     dependency_steam_workshop_url
  else if String.eqb (ET.tag child) "name" then
    ModDependency.mk dependency_id (ET.text child) dependency_download_url
                     dependency_steam_workshop_url
  else if String.eqb (ET.tag child) "downloadUrl" then
    ModDependency.mk dependency_id dependency_name (ET.text child)
                     dependency_steam_workshop_url
  else if String.eqb (ET.tag child) "steamWorkshopUrl" then
    ModDependency.mk dependency_id dependency_name dependency_download_url
                     (ET.text child)
  else d.

Definition _parse_dependency (element : ET.Element) : ModDependency.t :=
  foldl dependency_case (ModDependency.mk None None None None)
        (ET.children element).

(** [Version.parse(element.text)]; the text of an element may be [None],
    and the first test of [parse] is decided by its left operand before
    [version] is looked at. *)
Definition parse_text (text : option string) : result Version.t :=
  match text with
  | Some version => Version.parse version
  | None =>
      if str_truthy "+" then Raise MalformedVersionError else Raise TypeError
  end.

(** [tuple(Version.parse(child.text) for child in element)] *)
Fixpoint parse_texts (elements : list ET.Element) : result (list Version.t) :=
  match elements with
  | [] => Ok []
  | child :: elements' =>
      let* version := parse_text (ET.text child) in
      let* versions := parse_texts elements' in
      Ok (version :: versions)
  end.

(** The local variables of [load_metadata], in the order in which they
    are handed to [ModMetaData]. *)
Definition locals : Set := ModMetaData.t.

(** The body of the loop of [load_metadata]: one child of the root,
    matched on its tag. *)
Definition metadata_case (st : locals) (element : ET.Element) : result locals :=
  let '(ModMetaData.mk mod_id mod_name mod_version mod_url mod_description
                       mod_supported_versions mod_authors mod_dependencies) := st in
  if String.eqb (ET.tag element) "name" then
    Ok (ModMetaData.mk mod_id (ET.text element) mod_version mod_url mod_description
                       mod_supported_versions mod_authors mod_dependencies)
  else if String.eqb (ET.tag element) "packageId" then
    Ok (ModMetaData.mk (ET.text element) mod_name mod_version mod_url mod_description
                       mod_supported_versions mod_authors mod_dependencies)
  else if String.eqb (ET.tag element) "author" then
    Ok (ModMetaData.mk mod_id mod_name mod_version mod_url mod_description
                       mod_supported_versions (ET.text element :: mod_authors)
                       mod_dependencies)
  else if String.eqb (ET.tag element) "description" then
    Ok (ModMetaData.mk mod_id mod_name mod_version mod_url (ET.text element)
                       mod_supported_versions mod_authors mod_dependencies)
  else if String.eqb (ET.tag element) "modVersion" then
    let* version := parse_text (ET.text element) in
    Ok (ModMetaData.mk mod_id mod_name version mod_url mod_description
                       mod_supported_versions mod_authors mod_dependencies)
  else if String.eqb (ET.tag element) "supportedVersions" then
    let* versions := parse_texts (ET.children element) in
    Ok (ModMetaData.mk mod_id mod_name mod_version mod_url mod_description
                       versions mod_authors mod_dependencies)
  else if String.eqb (ET.tag element) "modDependencies" then
    Ok (ModMetaData.mk mod_id mod_name mod_version mod_url mod_description
                       mod_supported_versions mod_authors
                       (_parse_dependency <$> ET.children element))
  else Ok st.

Fixpoint metadata_loop (elements : list ET.Element) (st : locals) : result locals :=
  match elements with
  | [] => Ok st
  | element :: elements' =>
      let* st' := metadata_case st element in
      metadata_loop elements' st'
  end.

(** [load_metadata], from the root that [ET.ElementTree(file=file).getroot()]
    gives. *)
Definition load_metadata (root : ET.Element) : result ModMetaData.t :=
  metadata_loop (ET.children root)
    (ModMetaData.mk None None (Version.init 0 (Some 1) (Some 0) None) None None
                    [] [] []).

End AboutParser.

(** ** More vocabulary for the statements *)

Module Words.

(** No dot in the string. *)
Fixpoint dot_free (s : string) : bool :=
  match s with
  | EmptyString => true
  | String c s' => negb (Ascii.eqb c ".") && dot_free s'
  end.

(** The four components of a dotted version, in rendering order. *)
Definition components (v : Version.t) : list Z :=
  [Version.major v; Version.minor v; Version.build v; Version.revision v].

(** The primary key of a semantic version. *)
Definition key (v : SemanticVersion.t) : Z * Z * Z :=
  (SemanticVersion.major v, SemanticVersion.minor v, SemanticVersion.patch v).

(** The lexicographic order on triples of integers. *)
Definition key_lt (a b : Z * Z * Z) : Prop :=
  a.1.1 < b.1.1
  \/ a.1.1 = b.1.1 /\ (a.1.2 < b.1.2 \/ a.1.2 = b.1.2 /\ a.2 < b.2).

#[global] Instance key_lt_dec (a b : Z * Z * Z) : Decision (key_lt a b).
Proof. unfold key_lt. apply _. Defined.

(** Every character of the string is in the class. *)
Fixpoint all_in (cls : ascii -> bool) (s : string) : bool :=
  match s with
  | EmptyString => true
  | String c s' => cls c && all_in cls s'
  end.

(** The characters of ASCII, the code points below 128.  On them the
    classes [\d] and [\w] of [re], [str.isdigit] and the digits and the
    blanks that [int] reads are the ones of [Re.digit], [Re.word],
    [Py.is_digit] and [Py.is_space]; Python's [str] has further digits
    and letters above them, which a [string] of this file does not
    tell apart. *)
Definition ascii_char (c : ascii) : bool := (nat_of_ascii c <? 128)%nat.

(** A text written in ASCII only. *)
Definition ascii_text (s : string) : bool := all_in ascii_char s.

(** The next character, if any, is not in the class. *)
Definition none_ahead (cls : ascii -> bool) (rest : string) : bool :=
  match rest with
  | EmptyString => true
  | String c _ => negb (cls c)
  end.

(** A pre-release or a build label: a non-empty run of [[\w.-]]. *)
Definition label (s : string) : bool :=
  str_truthy s && all_in Re.word_dot_dash s.

Definition if_some (test : string -> bool) (x : option string) : bool :=
  match x with
  | Some s => test s
  | None => true
  end.

(** The [Version] attributes of the elements are written in ASCII. *)
Definition ascii_versions (elements : list ET.Element) : bool :=
  forallb (fun element => if_some ascii_text (ET.attrib element !! "Version"))
    elements.

(** An optional part of a version text: its mark and its text, or
    nothing. *)
Definition part (mark : ascii) (x : option string) (rest : string) : string :=
  match x with
  | Some s => String mark (s +:+ rest)
  | None => rest
  end.

(** The texts of the semantic-version grammar,
    [MAJOR.MINOR[.PATCH][-PRERELEASE][+BUILD]], followed by [tail]. *)
Definition semver_text (M m : string) (p pre meta : option string)
    (tail : string) : string :=
  M +:+ String "." (m +:+ part "." p (part "-" pre (part "+" meta tail))).

(** What the named groups capture on such a text. *)
Definition put (name : string) (x : option string) (caps : Re.captures)
    : Re.captures :=
  match x with
  | Some s => <[name := s]> caps
  | None => caps
  end.

Definition semver_captures (M m : string) (p pre meta : option string)
    : Re.captures :=
  put "build_metadata" meta
    (put "pre_release" pre
       (put "patch" p (<["minor" := m]> (<["major" := M]> ∅)))).

(** The end of the subject, or the newline that ends it. *)
Definition line_end (tail : string) : bool :=
  match tail with
  | EmptyString => true
  | String "010" EmptyString => true
  | _ => false
  end.

#[global] Instance script_version_eq_dec : EqDecision Scripts.Version.t.
Proof. solve_decision. Defined.

(** The three attributes of a [scripts/version.py] version. *)
Definition attributes (v : Scripts.Version.t) : Z * Z * Z :=
  (Scripts.Version.major v, Scripts.Version.minor v, Scripts.Version.patch v).

Definition not_negative (v : Scripts.Version.t) : Prop :=
  0 <= Scripts.Version.major v /\ 0 <= Scripts.Version.minor v
  /\ 0 <= Scripts.Version.patch v.

(** What [read_package_properties] makes of one element. *)
Definition package_of (element : ET.Element) (p : Package.t) : Prop :=
  ET.attrib element !! "Include" = Some (Package.name p)
  /\ (exists tail,
        line_end tail = true
        /\ ET.attrib element !! "Version"
           = Some (SemanticVersion.__str__ (Package.version p) +:+ tail))
  /\ Package.file_names p = ∅ /\ Package.dependencies p = [].

#[global] Instance dotted_eq_dec : EqDecision Version.t.
Proof. solve_decision. Defined.

(** A child of the root of an [About.xml] that makes [load_metadata] call
    [Version.parse]. *)
Definition carries_a_version (element : ET.Element) : bool :=
  String.eqb (ET.tag element) "modVersion"
  || String.eqb (ET.tag element) "supportedVersions"
     && negb (bool_decide (ET.children element = [])).

(** The texts of the children with the tag, in document order. *)
Definition texts_of (name : string) (elements : list ET.Element)
    : list (option string) :=
  ET.text <$> List.filter (fun e => String.eqb (ET.tag e) name) elements.

(** What the value of a variable is after one more element: the text of
    the element when the element carries the tag of the variable. *)
Definition latest (name : string) (element : ET.Element) (old : option string)
    : option string :=
  if String.eqb (ET.tag element) name then ET.text element else old.

(** The text of the last child with the tag, [None] without such a
    child. *)
Definition last_text (name : string) (elements : list ET.Element)
    : option string :=
  match last (texts_of name elements) with
  | Some text => text
  | None => None
  end.

End Words.
Import Words.

(** ** Digits, numerals and their values *)

Section Text.

Lemma app_cons (c : ascii) (s rest : string) :
  String c s +:+ rest = String c (s +:+ rest).
Proof. reflexivity. Qed.

Lemma app_empty_r (s : string) : s +:+ EmptyString = s.
Proof.
  induction s as [|c s IH]; [reflexivity|].
  now rewrite app_cons, IH.
Qed.

Lemma substring_app_l (s rest : string) :
  String.substring 0 (String.length s) (s +:+ rest) = s.
Proof.
  induction s as [|c s IH]; [now destruct rest|].
  rewrite app_cons. simpl. now rewrite IH.
Qed.

(** The ten digits, one by one. *)
Lemma is_digit_inv (c : ascii) :
  is_digit c = true ->
  c ∈ ["0"; "1"; "2"; "3"; "4"; "5"; "6"; "7"; "8"; "9"]%char.
Proof.
  destruct c as [[] [] [] [] [] [] [] []]; vm_compute; intros H;
    try discriminate H; set_solver.
Qed.


Ltac each_digit H :=
  apply is_digit_inv in H;
  repeat (apply elem_of_cons in H; destruct H as [->|H]);
  [..|now apply elem_of_nil in H].

Lemma digit_is_plain (c : ascii) :
  is_digit c = true ->
  is_space c = false /\ c <> "-"%char /\ c <> "+"%char /\ c <> "_"%char.
Proof. intros H. each_digit H; repeat split; discriminate. Qed.

Lemma rstrip_digits (s : string) : all_digits s = true -> rstrip s = s.
Proof.
  induction s as [|c s IH]; [reflexivity|]. simpl.
  intros [Hc Hs]%andb_prop. rewrite (IH Hs).
  destruct s; [|reflexivity].
  now destruct (digit_is_plain c Hc) as [-> _].
Qed.

Lemma literal_digits_digits (s : string) :
  all_digits s = true -> literal_digits true s = Some s.
Proof.
  induction s as [|c s IH]; [reflexivity|]. simpl.
  intros [Hc Hs]%andb_prop. now rewrite Hc, (IH Hs).
Qed.

Lemma uint_of_digits (s : string) :
  all_digits s = true -> exists d, NilEmpty.uint_of_string s = Some d.
Proof.
  induction s as [|c s IH]; [now exists Decimal.Nil|]. simpl.
  intros [Hc Hs]%andb_prop. destruct (IH Hs) as [d ->].
  each_digit Hc; eexists; reflexivity.
Qed.

(** [int] on a non-empty run of digits reads it as a decimal numeral. *)
Lemma int_of_digits (s : string) :
  isdigit s = true ->
  exists d, NilEmpty.uint_of_string s = Some d /\ int_of_str s = Ok (Z.of_uint d).
Proof.
  unfold isdigit. intros [Hne Hs]%andb_prop.
  destruct (uint_of_digits s Hs) as [d Hd]. exists d. split; [exact Hd|].
  destruct s as [|c s]; [discriminate|].
  pose proof Hs as [Hc Hs']%andb_prop.
  destruct (digit_is_plain c Hc) as (Hsp & Hminus & Hplus & _).
  unfold int_of_str. simpl lstrip. rewrite Hsp, (rstrip_digits _ Hs).
  assert (Hlit : unsigned_literal (String c s) = Some (Z.of_uint d)).
  { unfold unsigned_literal. simpl literal_digits.
    rewrite Hc, (literal_digits_digits s Hs'). simpl in Hd |- *. now rewrite Hd. }
  each_digit Hc; now rewrite Hlit.
Qed.

Lemma numeral_isdigit (s : string) : numeral s = true -> isdigit s = true.
Proof.
  destruct s as [|c s]; [discriminate|]. unfold numeral, isdigit. simpl.
  destruct (Ascii.eqb_spec c "0") as [->|_].
  - now destruct s.
  - intros [Hc Hs]%andb_prop. rewrite Hs, andb_true_r.
    revert Hc. destruct c as [[] [] [] [] [] [] [] []]; vm_compute; congruence.
Qed.

(** A numeral without a leading zero is what [str] writes for its value. *)
Lemma str_of_int_of_numeral (s : string) :
  numeral s = true ->
  exists n, int_of_str s = Ok n /\ 0 <= n /\ str_of_int n = s.
Proof.
  intros Hnum.
  destruct (int_of_digits s (numeral_isdigit s Hnum)) as (d & Hd & Hint).
  exists (Z.of_uint d). split; [exact Hint|]. split.
  { unfold Z.of_uint. lia. }
  unfold str_of_int.
  change (Z.of_uint d) with (Z.of_int (Decimal.Pos d)).
  rewrite DecimalZ.to_of. simpl Decimal.norm.
  assert (Hnorm : Decimal.unorm d = d).
  { destruct s as [|c s]; [discriminate|]. unfold numeral in Hnum.
    destruct (Ascii.eqb_spec c "0") as [->|Hc].
    - destruct s; [|discriminate]. now injection Hd as <-.
    - apply andb_prop in Hnum as [Hc' _]. simpl in Hd.
      destruct (NilEmpty.uint_of_string s) as [d'|]; [|discriminate].
      revert Hc' Hc Hd.
      destruct c as [[] [] [] [] [] [] [] []]; vm_compute;
        try congruence; intros _ _ [= <-]; reflexivity. }
  rewrite Hnorm. simpl NilZero.string_of_int.
  apply NilZero.sus. destruct s; [discriminate|exact Hd].
Qed.

End Text.

(** ** What [SEMVER_REGEX] matches *)

Section Matching.

Import Re SemanticVersion.

(** A greedy [\d*] in front of a run of digits takes the whole run when
    the continuation accepts what follows. *)
Lemma star_takes_digits (ds rest : string) (k : cont) (pos : nat)
    (caps found : captures) :
  all_digits ds = true -> no_digit_ahead rest = true ->
  k (pos + String.length ds)%nat rest caps = Some found ->
  star digit k pos (ds +:+ rest) caps = Some found.
Proof.
  revert pos. induction ds as [|c ds IH]; intros pos Hds Hrest Hk.
  - simpl in Hk. rewrite Nat.add_0_r in Hk.
    destruct rest as [|c rest]; [exact Hk|]. simpl in Hrest |- *.
    unfold digit. now destruct (is_digit c).
  - simpl in Hds. apply andb_prop in Hds as [Hc Hds].
    rewrite app_cons. simpl. unfold digit at 1. rewrite Hc.
    rewrite (IH (S pos) Hds Hrest); [reflexivity|].
    simpl in Hk. now rewrite Nat.add_succ_r in Hk.
Qed.

Lemma number_takes_numeral (n rest : string) (k : cont) (pos : nat)
    (caps found : captures) :
  numeral n = true -> no_digit_ahead rest = true ->
  k (pos + String.length n)%nat rest caps = Some found ->
  run number k pos (n +:+ rest) caps = Some found.
Proof.
  intros Hn Hrest Hk. destruct n as [|c n]; [discriminate|].
  unfold numeral in Hn. rewrite app_cons. unfold number. simpl in Hk |- *.
  rewrite Nat.add_succ_r in Hk.
  destruct (Ascii.eqb_spec c "0") as [->|Hc].
  - destruct n; [|discriminate]. change (EmptyString +:+ rest) with rest.
    simpl in Hk. rewrite Nat.add_0_r in Hk. now rewrite Hk.
  - apply andb_prop in Hn as [Hc' Hn]. rewrite Hc'.
    now apply star_takes_digits.
Qed.

Lemma named_number_takes_numeral (name n rest : string) (k : cont)
    (pos : nat) (caps found : captures) :
  numeral n = true -> no_digit_ahead rest = true ->
  k (pos + String.length n)%nat rest (<[name := n]> caps) = Some found ->
  run (Named name number) k pos (n +:+ rest) caps = Some found.
Proof.
  intros Hn Hrest Hk.
  change (run (Named name number) k pos (n +:+ rest) caps)
    with (run number
            (fun pos' rest' caps' =>
               k pos' rest'
                 (<[name := String.substring 0 (pos' - pos) (n +:+ rest)]> caps'))
            pos (n +:+ rest) caps).
  apply number_takes_numeral; [assumption..|].
  replace (pos + String.length n - pos)%nat with (String.length n) by lia.
  now rewrite substring_app_l.
Qed.

Lemma run_seq (p q : pattern) (k : cont) (pos : nat) (rest : string)
    (caps : captures) :
  run (Seq p q) k pos rest caps = run p (run q k) pos rest caps.
Proof. reflexivity. Qed.

Lemma run_lit (c : ascii) (k : cont) (pos : nat) (rest : string)
    (caps : captures) :
  run (Lit c) k pos (String c rest) caps = k (S pos) rest caps.
Proof. simpl. now rewrite Ascii.eqb_refl. Qed.

Lemma run_opt_taken (p : pattern) (k : cont) (pos : nat) (rest : string)
    (caps found : captures) :
  run p k pos rest caps = Some found ->
  run (Opt (Group p)) k pos rest caps = Some found.
Proof. simpl. now intros ->. Qed.

(** The match of [SEMVER_REGEX] on [major.minor.patch]. *)
Lemma match_three_numerals (M m p : string) :
  numeral M = true -> numeral m = true -> numeral p = true ->
  match_ SEMVER_REGEX (M +:+ "." +:+ m +:+ "." +:+ p)
  = Some (<["patch" := p]> (<["minor" := m]> (<["major" := M]> ∅))).
Proof.
  intros HM Hm Hp. unfold match_, SEMVER_REGEX.
  replace (M +:+ "." +:+ m +:+ "." +:+ p)
    with (M +:+ String "." (m +:+ String "." (p +:+ EmptyString)))
    by (now rewrite app_empty_r).
  rewrite run_seq. change (run Bol ?k 0%nat ?s ?c) with (k 0%nat s c).
  rewrite run_seq. apply named_number_takes_numeral; [done..|].
  rewrite run_seq, run_lit.
  rewrite run_seq. apply named_number_takes_numeral; [done..|].
  rewrite run_seq. apply run_opt_taken.
  rewrite run_seq, run_lit. apply named_number_takes_numeral; [done..|].
  reflexivity.
Qed.

(** The match of [SEMVER_REGEX] on [major.minor]: the patch group takes
    no part. *)
Lemma match_two_numerals (M m : string) :
  numeral M = true -> numeral m = true ->
  match_ SEMVER_REGEX (M +:+ "." +:+ m)
  = Some (<["minor" := m]> (<["major" := M]> ∅)).
Proof.
  intros HM Hm. unfold match_, SEMVER_REGEX.
  replace (M +:+ "." +:+ m) with (M +:+ String "." (m +:+ EmptyString))
    by (now rewrite app_empty_r).
  rewrite run_seq. change (run Bol ?k 0%nat ?s ?c) with (k 0%nat s c).
  rewrite run_seq. apply named_number_takes_numeral; [done..|].
  rewrite run_seq, run_lit.
  rewrite run_seq. apply named_number_takes_numeral; [done..|].
  reflexivity.
Qed.

End Matching.

(** ** The dotted [Version] *)

Section DottedVersion.

Import Version.

(** C1. [parse] is meant to accept one to four dot-separated integer
    segments, but its first test, ["+" or "-" in version], is true whatever
    [version] is: every call ends in [MalformedVersionError], and so does
    [parse("1.2.3.4")], for which ["1.2.3.4"] was to be rendered. *)
Theorem parse_raises_on_every_string :
  (forall version : string, parse version = Raise MalformedVersionError)
  /\ parse "1.2.3.4" = Raise MalformedVersionError
  /\ parse "1.2" = Raise MalformedVersionError.
Proof. repeat split. Qed.

Lemma lt_dotted (a b : Version.t) :
  Operators.lt (Dotted a) (Dotted b)
  = Ok ((major a <? major b) || (minor a <? minor b)
        || (build a <? build b) || (revision a <? revision b)).
Proof.
  unfold Operators.lt, Operators.binary; cbn.
  destruct (major a <? major b), (minor a <? minor b),
           (build a <? build b), (revision a <? revision b); reflexivity.
Qed.

(** C4. [a < b] on dotted versions is true exactly when some component of
    [a] is strictly below the same component of [b], whatever the earlier
    components said; so [Version(1, 2) < Version(2, 1)] and
    [Version(2, 1) < Version(1, 2)] are both true. *)
Theorem lt_true_when_any_component_smaller :
  (forall a b : Version.t,
      Operators.lt (Dotted a) (Dotted b) = Ok true <-> some_component_smaller a b)
  /\ (forall a b : Version.t,
      Operators.lt (Dotted a) (Dotted b) = Ok false <-> ~ some_component_smaller a b)
  /\ Operators.lt (Dotted (init 1 (Some 2) None None))
                  (Dotted (init 2 (Some 1) None None)) = Ok true
  /\ Operators.lt (Dotted (init 2 (Some 1) None None))
                  (Dotted (init 1 (Some 2) None None)) = Ok true.
Proof.
  split; [|split; [|split; reflexivity]].
  - intros a b. rewrite lt_dotted. unfold some_component_smaller.
    destruct (Z.ltb_spec (major a) (major b)), (Z.ltb_spec (minor a) (minor b)),
      (Z.ltb_spec (build a) (build b)), (Z.ltb_spec (revision a) (revision b));
      cbn; split; intros Hlt; try reflexivity; try discriminate; try tauto; lia.
  - intros a b. rewrite lt_dotted. unfold some_component_smaller.
    destruct (Z.ltb_spec (major a) (major b)), (Z.ltb_spec (minor a) (minor b)),
      (Z.ltb_spec (build a) (build b)), (Z.ltb_spec (revision a) (revision b));
      cbn; split; intros Hlt; try reflexivity; try discriminate; try lia;
      exfalso; apply Hlt; tauto.
Qed.

(** C8. The default rendering starts from one field and means to grow with
    [minor], [build] and [revision], but the three tests run in the order
    revision, build, minor and each overwrites the count: with [minor > 0]
    the count is 2 whatever [build] and [revision] are.
    [str(Version(1, 2, 3, 4))] is ["1.2"], not ["1.2.3.4"]. *)
Theorem str_drops_revision_when_minor_set :
  __str__ (mk 1 2 3 4) = Ok "1.2"
  /\ to_string (mk 1 2 3 4) 4 = Ok "1.2.3.4"
  /\ __str__ (mk 1 0 3 4) = Ok "1.0.3".
Proof. repeat split. Qed.

Lemma eq_dotted (a b : Version.t) :
  Operators.eq (Dotted a) (Dotted b) = Ok true -> a = b.
Proof.
  unfold Operators.eq, Operators.binary; cbn. intros [= H].
  destruct a, b; cbn in *.
  repeat (apply andb_prop in H; destruct H as [H ?]).
  f_equal; apply Z.eqb_eq; assumption.
Qed.

(** C10. Two dotted versions that compare equal have the same hash:
    [__eq__] and [__hash__] read the same four components and nothing
    else. *)
Theorem equal_versions_hash_alike (a b : Version.t) :
  Operators.eq (Dotted a) (Dotted b) = Ok true ->
  __hash__ a = __hash__ b.
Proof. intros H. apply eq_dotted in H. now subst. Qed.

Lemma equal_versions_hash_alike_witness :
  Operators.eq (Dotted (mk 1 2 3 4)) (Dotted (clone (mk 1 2 3 4))) = Ok true
  /\ __hash__ (mk 1 2 3 4) = __hash__ (clone (mk 1 2 3 4)).
Proof.
  split; [reflexivity|].
  apply (equal_versions_hash_alike (mk 1 2 3 4) (clone (mk 1 2 3 4))).
  reflexivity.
Defined.

End DottedVersion.

(** ** [SemanticVersion]: comparisons *)

Section SemanticComparisons.

Import SemanticVersion.

(** C2. [groupdict()] binds a named group that took no part to [None], so
    [groups.get("patch", "0")] finds the key and answers [None], never the
    default ["0"]; [int(None)] then raises.  [parse_version("1.0")] ends in
    [TypeError] instead of a version whose patch is 0. *)
Theorem parse_version_without_patch_raises :
  Re.groupdict SEMVER_REGEX <$> Re.match_ SEMVER_REGEX "1.0"
    = Some (<["major" := Some "1"]> (<["minor" := Some "0"]>
             (<["patch" := None]> (<["pre_release" := None]>
               (<["build_metadata" := None]> ∅)))))
  /\ parse_version "1.0" = Raise TypeError
  /\ parse_version "1.0-alpha" = Raise TypeError
  /\ parse_version "2.15+build" = Raise TypeError.
Proof. repeat split; vm_compute; reflexivity. Qed.

(** C3. In [_compare_pre_release] a pair of tokens ends the loop only when
    the left token is the smaller one ([if result > 0] repeats the test
    [if result] and never fires), so a later pair overrides an earlier pair
    that had the left token greater: ["1.0.0-b.a" < "1.0.0-a.b"] is true,
    and so is the converse.  A number against a word raises [TypeError],
    which the [except ValueError] does not catch.  A pre-release that is a
    proper prefix of the other does compare lower. *)
Theorem later_token_overrides_first_difference :
  (exists x y,
      parse_version "1.0.0-b.a" = Ok x /\ parse_version "1.0.0-a.b" = Ok y
      /\ _compare_pre_release (pre_release x) (pre_release y) = Ok (-1)
      /\ Operators.lt (Semantic x) (Semantic y) = Ok true
      /\ Operators.lt (Semantic y) (Semantic x) = Ok true)
  /\ (exists x y,
      parse_version "1.0.0-alpha.1" = Ok x /\ parse_version "1.0.0-alpha.beta" = Ok y
      /\ Operators.lt (Semantic x) (Semantic y) = Raise TypeError)
  /\ (exists x y,
      parse_version "1.0.0-alpha" = Ok x /\ parse_version "1.0.0-alpha.1" = Ok y
      /\ Operators.lt (Semantic x) (Semantic y) = Ok true
      /\ Operators.lt (Semantic y) (Semantic x) = Ok false).
Proof.
  split; [|split];
    eexists; eexists; repeat split; try (vm_compute; reflexivity).
Qed.

Lemma eq_semantic (a b : t) :
  Operators.eq (Semantic a) (Semantic b)
  = Ok ((major a =? major b) && (minor a =? minor b) && (patch a =? patch b)
        && bool_decide (pre_release a = pre_release b)).
Proof. reflexivity. Qed.

Lemma lt_semantic (a b : t) :
  Operators.lt (Semantic a) (Semantic b)
  = if triple_ne (major a, minor a, patch a) (major b, minor b, patch b)
    then Ok (triple_lt (major a, minor a, patch a) (major b, minor b, patch b))
    else let* c := _compare_pre_release (pre_release a) (pre_release b) in
         Ok (c <? 0).
Proof.
  unfold Operators.lt, Operators.binary; cbn.
  destruct (negb _); [reflexivity|].
  destruct (_compare_pre_release _ _); reflexivity.
Qed.

(** C6. [build_metadata] takes no part in [==] nor in [<]: replacing it on
    either side changes neither outcome (not even an exception).
    ["1.0.0+build1"] and ["1.0.0+build2"] parse to equal versions. *)
Theorem build_metadata_is_ignored :
  (forall (a b : t) (m m' : option string),
      Operators.eq (Semantic (with_build_metadata a m))
                   (Semantic (with_build_metadata b m'))
      = Operators.eq (Semantic a) (Semantic b)
      /\ Operators.lt (Semantic (with_build_metadata a m))
                      (Semantic (with_build_metadata b m'))
         = Operators.lt (Semantic a) (Semantic b))
  /\ (exists x y,
      parse_version "1.0.0+build1" = Ok x /\ parse_version "1.0.0+build2" = Ok y
      /\ build_metadata x = Some "build1" /\ build_metadata y = Some "build2"
      /\ Operators.eq (Semantic x) (Semantic y) = Ok true).
Proof.
  split.
  - intros a b m m'. rewrite !eq_semantic, !lt_semantic. split; reflexivity.
  - eexists; eexists; repeat split; try (vm_compute; reflexivity).
Qed.

(** C7. With equal (major, minor, patch), a version that carries a
    pre-release is below the one that carries none, and not the other way
    round. *)
Theorem release_is_above_its_pre_release (a b : t) (pre : string) :
  major a = major b -> minor a = minor b -> patch a = patch b ->
  pre_release a = Some pre -> pre_release b = None ->
  Operators.lt (Semantic a) (Semantic b) = Ok true
  /\ Operators.lt (Semantic b) (Semantic a) = Ok false
  /\ Operators.eq (Semantic a) (Semantic b) = Ok false.
Proof.
  intros Hmajor Hminor Hpatch Ha Hb.
  rewrite !lt_semantic, eq_semantic.
  unfold triple_ne. rewrite Hmajor, Hminor, Hpatch, Ha, Hb, !Z.eqb_refl.
  cbn. split; [reflexivity|]. split; [|reflexivity].
  destruct (str_truthy pre); reflexivity.
Qed.

Lemma release_is_above_its_pre_release_witness :
  exists x y,
    parse_version "1.0.0-alpha" = Ok x /\ parse_version "1.0.0" = Ok y
    /\ Operators.lt (Semantic x) (Semantic y) = Ok true
    /\ Operators.lt (Semantic y) (Semantic x) = Ok false
    /\ Operators.eq (Semantic x) (Semantic y) = Ok false.
Proof.
  exists (mk 1 0 0 (Some "alpha") None), (mk 1 0 0 None None).
  split; [vm_compute; reflexivity|]. split; [vm_compute; reflexivity|].
  apply (release_is_above_its_pre_release
           (mk 1 0 0 (Some "alpha") None) (mk 1 0 0 None None) "alpha");
    reflexivity.
Defined.

End SemanticComparisons.

(** ** [SemanticVersion]: parsing and rendering *)

Section RoundTrip.

Import Re SemanticVersion.

Lemma groupdict_three_numerals (M m p : string) :
  let groups :=
    groupdict SEMVER_REGEX (<["patch" := p]> (<["minor" := m]> (<["major" := M]> ∅))) in
  dict_getitem groups "major" = Ok (Some M)
  /\ dict_getitem groups "minor" = Ok (Some m)
  /\ dict_get groups "patch" (Some "0") = Some p
  /\ dict_get groups "pre_release" None = None
  /\ dict_get groups "build_metadata" None = None.
Proof. repeat split; vm_compute; reflexivity. Qed.

Lemma parse_three_numerals (M m p : string) (a b c : Z) :
  numeral M = true -> numeral m = true -> numeral p = true ->
  int_of_str M = Ok a -> int_of_str m = Ok b -> int_of_str p = Ok c ->
  parse_version (M +:+ "." +:+ m +:+ "." +:+ p) = Ok (mk a b c None None).
Proof.
  intros HM Hm Hp Ha Hb Hc. unfold parse_version.
  rewrite (match_three_numerals M m p HM Hm Hp).
  destruct (groupdict_three_numerals M m p) as (-> & -> & -> & -> & ->).
  unfold init. simpl. now rewrite Ha, Hb, Hc.
Qed.

(** Without a patch the parse never succeeds, whatever the two numerals. *)
Lemma parse_two_numerals_raises (M m : string) :
  numeral M = true -> numeral m = true ->
  parse_version (M +:+ "." +:+ m) = Raise TypeError.
Proof.
  intros HM Hm. unfold parse_version.
  rewrite (match_two_numerals M m HM Hm).
  destruct (str_of_int_of_numeral M HM) as (a & Ha & _).
  destruct (str_of_int_of_numeral m Hm) as (b & Hb & _).
  assert (Hgroups :
    let groups := groupdict SEMVER_REGEX (<["minor" := m]> (<["major" := M]> ∅)) in
    dict_getitem groups "major" = Ok (Some M)
    /\ dict_getitem groups "minor" = Ok (Some m)
    /\ dict_get groups "patch" (Some "0") = None)
    by (repeat split; vm_compute; reflexivity).
  destruct Hgroups as (-> & -> & ->).
  unfold init. simpl. now rewrite Ha, Hb.
Qed.

(** C5. For three numerals without leading zeros, parsing
    [major.minor.patch] succeeds, rendering the result gives the string
    back, and parsing the rendering gives a version equal to the first. *)
Theorem parse_render_parse (M m p : string) :
  numeral M = true -> numeral m = true -> numeral p = true ->
  exists v v',
    parse_version (M +:+ "." +:+ m +:+ "." +:+ p) = Ok v
    /\ __str__ v = M +:+ "." +:+ m +:+ "." +:+ p
    /\ parse_version (__str__ v) = Ok v'
    /\ Operators.eq (Semantic v') (Semantic v) = Ok true.
Proof.
  intros HM Hm Hp.
  destruct (str_of_int_of_numeral M HM) as (a & Ha & _ & Sa).
  destruct (str_of_int_of_numeral m Hm) as (b & Hb & _ & Sb).
  destruct (str_of_int_of_numeral p Hp) as (c & Hc & _ & Sc).
  pose proof (parse_three_numerals M m p a b c HM Hm Hp Ha Hb Hc) as Hparse.
  assert (Hstr : __str__ (mk a b c None None) = M +:+ "." +:+ m +:+ "." +:+ p).
  { unfold __str__. simpl. now rewrite Sa, Sb, Sc. }
  exists (mk a b c None None), (mk a b c None None).
  rewrite Hstr. repeat split; try assumption.
  unfold Operators.eq, Operators.binary. simpl.
  now rewrite !Z.eqb_refl.
Qed.

Lemma parse_render_parse_witness :
  exists v v',
    parse_version "1.20.3" = Ok v
    /\ __str__ v = "1.20.3"
    /\ parse_version (__str__ v) = Ok v'
    /\ Operators.eq (Semantic v') (Semantic v) = Ok true.
Proof.
  apply (parse_render_parse "1" "20" "3"); reflexivity.
Defined.

End RoundTrip.

(** ** Comparisons across kinds *)

Section Mismatch.

Import Operators.

(** An object always gets an answer from its own [__eq__] about itself:
    the identity fallback of [==] concerns two different objects only. *)
Lemma eq_answers_about_itself (a : value) :
  exists b : bool, __eq__ a a = Ok (Bool b).
Proof. destruct a; eexists; reflexivity. Qed.

(** C9, as the specification words it, fails on [==]: a dotted version
    compared for equality with a semantic version is [False], not an
    error. *)
Lemma eq_across_kinds_is_false_not_an_error :
  kind_of (Dotted (Version.mk 1 0 0 0)) <> kind_of (Semantic (SemanticVersion.mk 1 0 0 None None))
  /\ eq (Dotted (Version.mk 1 0 0 0)) (Semantic (SemanticVersion.mk 1 0 0 None None)) = Ok false
  /\ eq (Semantic (SemanticVersion.mk 1 0 0 None None)) (Dotted (Version.mk 1 0 0 0)) = Ok false
  /\ eq (Semantic (SemanticVersion.mk 1 0 0 None None)) (PyStr "1.0.0") = Ok false.
Proof. repeat split; discriminate. Qed.

(** C9, amended. The operands are dotted versions, semantic versions,
    [None], [int]s and [str]s.  When the two are not of the same kind (a
    dotted version, a semantic version, one of the three others), the four
    orderings raise: [ValueError] when the operand that receives the other
    one is a dotted version, [TypeError] otherwise; [==] and [!=] raise
    nothing and answer [False] and [True].  An operand of a class that
    brings comparison methods of its own, which Python would try in the
    reflected call, is no [value] and is left out of the statement. *)
Theorem mismatched_orderings_raise_equalities_answer (a b : value) :
  kind_of a <> kind_of b ->
  lt a b = Raise (mismatch_error a) /\ le a b = Raise (mismatch_error a)
  /\ gt a b = Raise (mismatch_error b) /\ ge a b = Raise (mismatch_error b)
  /\ eq a b = Ok false /\ ne a b = Ok true.
Proof.
  intros Hkind.
  destruct a as [| m | s | v | v], b as [| n | u | w | w];
    try (exfalso; apply Hkind; reflexivity); repeat split.
Qed.

Lemma mismatched_orderings_raise_equalities_answer_witness :
  lt (Semantic (SemanticVersion.mk 1 0 0 None None)) (Dotted (Version.mk 1 0 0 0))
    = Raise TypeError
  /\ le (Semantic (SemanticVersion.mk 1 0 0 None None)) (Dotted (Version.mk 1 0 0 0))
    = Raise TypeError
  /\ gt (Semantic (SemanticVersion.mk 1 0 0 None None)) (Dotted (Version.mk 1 0 0 0))
    = Raise ValueError
  /\ ge (Semantic (SemanticVersion.mk 1 0 0 None None)) (Dotted (Version.mk 1 0 0 0))
    = Raise ValueError
  /\ eq (Semantic (SemanticVersion.mk 1 0 0 None None)) (Dotted (Version.mk 1 0 0 0))
    = Ok false
  /\ ne (Semantic (SemanticVersion.mk 1 0 0 None None)) (Dotted (Version.mk 1 0 0 0))
    = Ok true.
Proof.
  apply (mismatched_orderings_raise_equalities_answer
           (Semantic (SemanticVersion.mk 1 0 0 None None))
           (Dotted (Version.mk 1 0 0 0))).
  discriminate.
Defined.

End Mismatch.

(** ** Numbers and their decimal text *)

Section Decimal.

Lemma digits_of_uint (d : Decimal.uint) :
  all_digits (NilEmpty.string_of_uint d) = true.
Proof. induction d; simpl; auto. Qed.

Lemma unsigned_literal_digits (s : string) (d : Decimal.uint) :
  isdigit s = true -> NilEmpty.uint_of_string s = Some d ->
  unsigned_literal s = Some (Z.of_uint d).
Proof.
  unfold isdigit. intros [Hne Hs]%andb_prop Hd.
  destruct s as [|c s]; [discriminate|].
  pose proof Hs as [Hc Hs']%andb_prop.
  unfold unsigned_literal. simpl literal_digits.
  rewrite Hc, (literal_digits_digits s Hs'). simpl in Hd |- *. now rewrite Hd.
Qed.

Lemma to_uint_nonnil (z : Z) (d : Decimal.uint) :
  Z.to_int z = Decimal.Pos d \/ Z.to_int z = Decimal.Neg d -> d <> Decimal.Nil.
Proof.
  destruct z as [|p|p]; simpl; intros [[= <-]|[= <-]];
    try discriminate; apply DecimalPos.Unsigned.to_uint_nonnil.
Qed.

Lemma string_of_uint_isdigit (d : Decimal.uint) :
  d <> Decimal.Nil -> isdigit (NilEmpty.string_of_uint d) = true.
Proof.
  intros Hd. unfold isdigit. rewrite digits_of_uint, andb_true_r.
  destruct d; try reflexivity. now destruct Hd.
Qed.

Lemma rstrip_minus_digits (s : string) :
  isdigit s = true -> rstrip (String "-" s) = String "-" s.
Proof.
  unfold isdigit. intros [Hne Hs]%andb_prop.
  change (rstrip (String "-" s))
    with (match rstrip s with
          | EmptyString => if is_space "-" then EmptyString else String "-" EmptyString
          | r => String "-" r
          end).
  rewrite (rstrip_digits s Hs). now destruct s.
Qed.

(** [int(str(n)) == n], negative numbers included. *)
Lemma int_of_str_of_int (n : Z) : int_of_str (str_of_int n) = Ok n.
Proof.
  unfold str_of_int. rewrite <- (DecimalZ.of_to n) at 2.
  destruct (Z.to_int n) as [d|d] eqn:Hn.
  - assert (Hd : d <> Decimal.Nil) by (apply (to_uint_nonnil n); auto).
    simpl NilZero.string_of_int.
    replace (NilZero.string_of_uint d) with (NilEmpty.string_of_uint d)
      by (now destruct d).
    destruct (int_of_digits _ (string_of_uint_isdigit d Hd)) as (d' & Hd' & ->).
    rewrite NilEmpty.usu in Hd'. now injection Hd' as <-.
  - assert (Hd : d <> Decimal.Nil) by (apply (to_uint_nonnil n); auto).
    simpl NilZero.string_of_int.
    replace (NilZero.string_of_uint d) with (NilEmpty.string_of_uint d)
      by (now destruct d).
    pose proof (string_of_uint_isdigit d Hd) as Hdig.
    unfold int_of_str. simpl lstrip.
    rewrite (rstrip_minus_digits _ Hdig).
    now rewrite (unsigned_literal_digits _ d Hdig (NilEmpty.usu d)).
Qed.

End Decimal.

(** ** Splitting at dots *)

Section Splitting.

Lemma split_dot_free (s : string) :
  dot_free s = true -> split "." s = [s].
Proof.
  induction s as [|c s IH]; [reflexivity|]. simpl.
  intros [Hc Hs]%andb_prop. apply negb_true_iff in Hc.
  now rewrite Hc, (IH Hs).
Qed.

Lemma split_app_dot (x rest : string) :
  dot_free x = true ->
  split "." (x +:+ String "." rest) = x :: split "." rest.
Proof.
  induction x as [|c x IH]; [reflexivity|]. rewrite app_cons. simpl.
  intros [Hc Hx]%andb_prop. apply negb_true_iff in Hc.
  now rewrite Hc, (IH Hx).
Qed.

Lemma digits_dot_free (s : string) : all_digits s = true -> dot_free s = true.
Proof.
  induction s as [|c s IH]; [reflexivity|]. simpl.
  intros [Hc Hs]%andb_prop. rewrite (IH Hs), andb_true_r.
  apply is_digit_inv in Hc.
  repeat (apply elem_of_cons in Hc; destruct Hc as [->|Hc]); try reflexivity.
  now apply elem_of_nil in Hc.
Qed.

Lemma str_of_int_dot_free (n : Z) : dot_free (str_of_int n) = true.
Proof.
  unfold str_of_int.
  destruct (Z.to_int n) as [d|d]; simpl;
    destruct d; try reflexivity; apply digits_dot_free; simpl;
    rewrite ?digits_of_uint; reflexivity.
Qed.

End Splitting.

(** ** The dotted [Version]: rendering *)

Section DottedRendering.

Import Version.

Lemma dot_app (s : string) : "." +:+ s = String "." s.
Proof. reflexivity. Qed.

Lemma to_string_read_back (v : Version.t) (n : Z) :
  1 <= n <= 4 ->
  exists s, to_string v n = Ok s
    /\ int_of_str <$> split "." s = Ok <$> take (Z.to_nat n) (components v).
Proof.
  intros Hn.
  assert (n = 1 \/ n = 2 \/ n = 3 \/ n = 4) as [-> | [-> | [-> | ->]]] by lia;
    eexists; (split; [reflexivity|]);
    rewrite ?dot_app, ?split_app_dot, split_dot_free
      by apply str_of_int_dot_free;
    simpl; now rewrite !int_of_str_of_int.
Qed.

(** X1. What [to_string] writes for [field_count] fields splits at the dots
    into [field_count] segments, and [int] reads them back as the leading
    components. *)
Theorem to_string_segments_read_back (v : Version.t) (n : Z) :
  1 <= n <= 4 ->
  exists s, to_string v n = Ok s
    /\ int_of_str <$> split "." s = Ok <$> take (Z.to_nat n) (components v).
Proof. exact (to_string_read_back v n). Qed.

Lemma to_string_segments_read_back_witness :
  exists s, to_string (mk 1 2 (-1) (-1)) 3 = Ok s
    /\ int_of_str <$> split "." s = [Ok 1; Ok 2; Ok (-1)].
Proof.
  apply (to_string_segments_read_back (mk 1 2 (-1) (-1)) 3). lia.
Defined.

End DottedRendering.

(** ** The dotted [Version]: default rendering and [<=] *)

Section DottedRelations.

Import Version.

(** X2. The default rendering never raises: the count it picks is always
    one that [to_string] accepts. *)
Theorem default_rendering_never_raises (v : Version.t) :
  exists n s, 1 <= n <= 4 /\ __str__ v = Ok s /\ to_string v n = Ok s
    /\ int_of_str <$> split "." s = Ok <$> take (Z.to_nat n) (components v).
Proof.
  unfold __str__.
  destruct (0 <? minor v), (0 <? build v), (0 <? revision v);
    match goal with
    | |- context [to_string v ?k] =>
        destruct (to_string_read_back v k ltac:(lia)) as (s & Hs & Hback);
        exists k, s; repeat split; try lia; assumption
    end.
Qed.

Lemma le_dotted (a b : Version.t) :
  Operators.le (Dotted a) (Dotted b)
  = Ok ((major a <=? major b) || (minor a <=? minor b)
        || (build a <=? build b) || (revision a <=? revision b)).
Proof.
  unfold Operators.le, Operators.binary; cbn.
  destruct (major a <=? major b), (minor a <=? minor b),
           (build a <=? build b), (revision a <=? revision b); reflexivity.
Qed.

(** X3. [a <= b] on dotted versions is false only when [a] exceeds [b] in
    every component; so one of [a <= b], [b <= a] always holds, [a <= a]
    holds, and [a < b] implies [a <= b]. *)
Theorem le_false_only_when_greater_everywhere :
  (forall a b : Version.t,
      Operators.le (Dotted a) (Dotted b) = Ok false <->
      major b < major a /\ minor b < minor a
      /\ build b < build a /\ revision b < revision a)
  /\ (forall a b : Version.t,
      Operators.le (Dotted a) (Dotted b) = Ok true
      \/ Operators.le (Dotted b) (Dotted a) = Ok true)
  /\ (forall a : Version.t, Operators.le (Dotted a) (Dotted a) = Ok true)
  /\ (forall a b : Version.t,
      Operators.lt (Dotted a) (Dotted b) = Ok true ->
      Operators.le (Dotted a) (Dotted b) = Ok true).
Proof.
  repeat split.
  - revert H. rewrite le_dotted. intros [= H].
    destruct (Z.leb_spec (major a) (major b)); [discriminate|lia].
  - revert H. rewrite le_dotted. intros [= H].
    destruct (Z.leb_spec (major a) (major b)); [discriminate|].
    destruct (Z.leb_spec (minor a) (minor b)); [discriminate|lia].
  - revert H. rewrite le_dotted. intros [= H].
    destruct (Z.leb_spec (major a) (major b)); [discriminate|].
    destruct (Z.leb_spec (minor a) (minor b)); [discriminate|].
    destruct (Z.leb_spec (build a) (build b)); [discriminate|lia].
  - revert H. rewrite le_dotted. intros [= H].
    destruct (Z.leb_spec (major a) (major b)); [discriminate|].
    destruct (Z.leb_spec (minor a) (minor b)); [discriminate|].
    destruct (Z.leb_spec (build a) (build b)); [discriminate|].
    destruct (Z.leb_spec (revision a) (revision b)); [discriminate|lia].
  - intros (H1 & H2 & H3 & H4). rewrite le_dotted. f_equal.
    rewrite !orb_false_iff, !Z.leb_gt. auto.
  - intros a b. rewrite !le_dotted.
    destruct (Z.leb_spec (major a) (major b)); [now left|right].
    f_equal. rewrite !orb_true_iff, Z.leb_le. left; left; left. lia.
  - intros a. rewrite le_dotted, Z.leb_refl. reflexivity.
  - intros a b. rewrite lt_dotted, le_dotted. intros [= H]. f_equal.
    rewrite !orb_true_iff, !Z.ltb_lt in H. rewrite !orb_true_iff, !Z.leb_le. lia.
Qed.

End DottedRelations.

(** ** The dotted [Version]: equality and hash *)

Section DottedIdentity.

Import Version.

(** X4. [==] on dotted versions is equality of the four components, [!=]
    is its negation, and [clone] gives back an equal version. *)
Theorem eq_is_componentwise :
  (forall a b : Version.t, Operators.eq (Dotted a) (Dotted b) = Ok (bool_decide (a = b)))
  /\ (forall a b : Version.t,
      Operators.ne (Dotted a) (Dotted b) = Ok (negb (bool_decide (a = b))))
  /\ (forall a : Version.t, Operators.eq (Dotted a) (Dotted (clone a)) = Ok true).
Proof.
  assert (Heq : forall a b : Version.t,
    (major a =? major b) && (minor a =? minor b) && (build a =? build b)
    && (revision a =? revision b) = bool_decide (a = b)).
  { intros [a1 a2 a3 a4] [b1 b2 b3 b4]. cbn.
    destruct (bool_decide_reflect (mk a1 a2 a3 a4 = mk b1 b2 b3 b4)) as [[= -> -> -> ->]|Hne].
    - now rewrite !Z.eqb_refl.
    - apply not_true_is_false. intros H.
      rewrite !andb_true_iff, !Z.eqb_eq in H.
      destruct H as (((-> & ->) & ->) & ->). now apply Hne. }
  repeat split.
  - intros a b. unfold Operators.eq, Operators.binary. cbn. now rewrite Heq.
  - intros a b. unfold Operators.ne, Operators.binary. cbn. now rewrite Heq.
  - intros [a1 a2 a3 a4]. unfold Operators.eq, Operators.binary. cbn.
    now rewrite !Z.eqb_refl.
Qed.

Lemma lor_below (n a b : Z) :
  0 < n -> 0 <= a < 2 ^ n -> 0 <= b < 2 ^ n -> 0 <= Z.lor a b < 2 ^ n.
Proof.
  intros Hn Ha Hb. split; [apply Z.lor_nonneg; lia|].
  destruct (Z.eq_dec (Z.lor a b) 0) as [->|Hnz]; [lia|].
  assert (0 <= Z.lor a b) by (apply Z.lor_nonneg; lia).
  apply Z.log2_lt_pow2; [lia|].
  rewrite Z.log2_lor by lia.
  assert (Hlog : forall x, 0 <= x < 2 ^ n -> Z.log2 x < n).
  { intros x Hx. destruct (Z.eq_dec x 0) as [->|]; [simpl; lia|].
    apply Z.log2_lt_pow2; lia. }
  pose proof (Hlog a Ha). pose proof (Hlog b Hb). lia.
Qed.

Lemma masked_shifted_below (x bits shift : Z) :
  0 <= bits -> 0 <= shift -> bits + shift <= 32 ->
  0 <= Z.shiftl (Z.land x (Z.ones bits)) shift < 2 ^ 32.
Proof.
  intros Hb Hs Hsum. rewrite Z.land_ones, Z.shiftl_mul_pow2 by lia.
  pose proof (Z.mod_pos_bound x (2 ^ bits) ltac:(lia)) as Hmod.
  assert (Hpow : 2 ^ bits * 2 ^ shift <= 2 ^ 32).
  { rewrite <- Z.pow_add_r by lia. apply Z.pow_le_mono_r; lia. }
  assert (0 < 2 ^ shift) by lia. nia.
Qed.

(** X5. The hash fits in 32 bits whatever the components are, the negative
    sentinels included, and it only sees the components modulo 16, 256,
    4096 and 4096. *)
Theorem hash_fits_32_bits (v : Version.t) :
  0 <= __hash__ v < 2 ^ 32
  /\ __hash__ v = __hash__ (mk (major v mod 16) (minor v mod 256)
                               (build v mod 4096) (revision v mod 4096)).
Proof.
  unfold __hash__. cbn [major minor build revision]. split.
  - change 0x0000000F with (Z.ones 4). change 0x000000FF with (Z.ones 8).
    change 0x00000FFF with (Z.ones 12).
    rewrite Z.lor_0_l.
    pose proof (masked_shifted_below (major v) 4 28 ltac:(lia) ltac:(lia) ltac:(lia)).
    pose proof (masked_shifted_below (minor v) 8 20 ltac:(lia) ltac:(lia) ltac:(lia)).
    pose proof (masked_shifted_below (build v) 12 12 ltac:(lia) ltac:(lia) ltac:(lia)).
    pose proof (masked_shifted_below (revision v) 12 0 ltac:(lia) ltac:(lia) ltac:(lia)) as Hr.
    rewrite Z.shiftl_0_r in Hr.
    repeat apply lor_below; lia.
  - change 0x0000000F with (Z.ones 4). change 0x000000FF with (Z.ones 8).
    change 0x00000FFF with (Z.ones 12).
    rewrite !Z.land_ones by lia.
    change (2 ^ 4) with 16. change (2 ^ 8) with 256. change (2 ^ 12) with 4096.
    now rewrite !Z.mod_mod by lia.
Qed.

End DottedIdentity.

(** ** [SemanticVersion]: the order *)

Section SemanticOrder.

Import SemanticVersion.

Lemma token_of_answers (sub : string) : exists t, token_of sub = Ok t.
Proof.
  unfold token_of. destruct (isdigit sub) eqn:Hs; [|eauto].
  destruct (int_of_digits sub Hs) as (d & _ & ->). eauto.
Qed.

Lemma ltb_irrefl (s : string) : String.ltb s s = false.
Proof.
  unfold String.ltb. pose proof (String.compare_antisym s s) as H.
  now destruct (String.compare s s).
Qed.

Lemma token_lt_irrefl (t : token) : token_lt t t = Ok false.
Proof.
  destruct t; simpl; f_equal; [apply Z.ltb_irrefl | apply ltb_irrefl].
Qed.

(** Pairs of identical tokens never end the loop. *)
Lemma compare_tokens_same (l : list string) (otherwise : Z) :
  compare_tokens (zip l l) otherwise = Ok otherwise.
Proof.
  induction l as [|sub l IH]; [reflexivity|]. simpl.
  destruct (token_of_answers sub) as [t ->]. simpl.
  rewrite token_lt_irrefl. simpl. exact IH.
Qed.

Lemma compare_pre_release_same (pr : option string) :
  _compare_pre_release pr pr = Ok 0.
Proof.
  destruct pr as [s|]; [|reflexivity]. simpl.
  rewrite compare_tokens_same. f_equal. lia.
Qed.

Lemma triple_ne_key (a b : t) :
  triple_ne (major a, minor a, patch a) (major b, minor b, patch b)
  = negb (bool_decide (key a = key b)).
Proof.
  destruct a as [a1 a2 a3 ? ?], b as [b1 b2 b3 ? ?].
  unfold triple_ne, key. cbn. f_equal.
  destruct (bool_decide_reflect ((a1, a2, a3) = (b1, b2, b3))) as [[= -> -> ->]|Hne].
  - now rewrite !Z.eqb_refl.
  - apply not_true_is_false. intros H.
    rewrite !andb_true_iff, !Z.eqb_eq in H. destruct H as ((-> & ->) & ->).
    now apply Hne.
Qed.

Lemma triple_lt_key (a b : t) :
  triple_lt (major a, minor a, patch a) (major b, minor b, patch b)
  = bool_decide (key_lt (key a) (key b)).
Proof.
  destruct a as [a1 a2 a3 ? ?], b as [b1 b2 b3 ? ?].
  unfold triple_lt, key, key_lt. cbn.
  destruct (Z.eqb_spec a1 b1), (Z.eqb_spec a2 b2);
    cbn; destruct (Z.ltb_spec a1 b1), (Z.ltb_spec a2 b2), (Z.ltb_spec a3 b3);
    symmetry; try (apply bool_decide_eq_true; lia);
    apply bool_decide_eq_false; lia.
Qed.

(** X6. A semantic version compared with itself never raises, whatever its
    pre-release holds: [==], [<=], [>=] are true, [<], [>], [!=] false. *)
Theorem semantic_self_comparison (a : t) :
  Operators.eq (Semantic a) (Semantic a) = Ok true
  /\ Operators.ne (Semantic a) (Semantic a) = Ok false
  /\ Operators.lt (Semantic a) (Semantic a) = Ok false
  /\ Operators.le (Semantic a) (Semantic a) = Ok true
  /\ Operators.gt (Semantic a) (Semantic a) = Ok false
  /\ Operators.ge (Semantic a) (Semantic a) = Ok true.
Proof.
  assert (Heq : Operators.__eq__ (Semantic a) (Semantic a) = Ok (Bool true)).
  { cbn. now rewrite !Z.eqb_refl, bool_decide_eq_true_2. }
  assert (Hlt : __lt__ (V := Version.t) a (Semantic a) = Ok (Bool false)).
  { cbn. unfold triple_ne. rewrite !Z.eqb_refl. cbn.
    now rewrite compare_pre_release_same. }
  unfold Operators.eq, Operators.ne, Operators.lt, Operators.le, Operators.gt,
    Operators.ge, Operators.binary, Operators.__ne__, Operators.__lt__,
    Operators.__le__, Operators.__gt__, Operators.__ge__,
    Operators._le_from_lt, Operators._gt_from_lt, Operators._ge_from_lt,
    Operators.eq, Operators.ne, Operators.binary, Operators.__ne__.
  rewrite !Hlt, !Heq. cbn.
  repeat split.
Qed.


(** What the derived operators answer once [__lt__] has answered [r]. *)
Lemma semantic_operators (a b : t) (r : bool) :
  __lt__ (V := Version.t) a (Semantic b) = Ok (Bool r) ->
  let e := bool_decide (key a = key b)
           && bool_decide (pre_release a = pre_release b) in
  Operators.eq (Semantic a) (Semantic b) = Ok e
  /\ Operators.ne (Semantic a) (Semantic b) = Ok (negb e)
  /\ Operators.lt (Semantic a) (Semantic b) = Ok r
  /\ Operators.le (Semantic a) (Semantic b) = Ok (r || e)
  /\ Operators.gt (Semantic a) (Semantic b) = Ok (negb r && negb e)
  /\ Operators.ge (Semantic a) (Semantic b) = Ok (negb r).
Proof.
  intros Hlt e.
  assert (Heq : Operators.__eq__ (Semantic a) (Semantic b) = Ok (Bool e)).
  { cbn. do 2 f_equal. subst e. f_equal.
    pose proof (triple_ne_key a b) as Hk. unfold triple_ne in Hk.
    apply (f_equal negb) in Hk. now rewrite !negb_involutive in Hk. }
  unfold Operators.eq, Operators.ne, Operators.lt, Operators.le, Operators.gt,
    Operators.ge, Operators.binary, Operators.__ne__, Operators.__lt__,
    Operators.__le__, Operators.__gt__, Operators.__ge__,
    Operators._le_from_lt, Operators._gt_from_lt, Operators._ge_from_lt,
    Operators.eq, Operators.ne, Operators.binary, Operators.__ne__.
  rewrite !Hlt, !Heq. cbn. destruct r, e; repeat split.
Qed.

Lemma key_lt_total (x y : Z * Z * Z) :
  x <> y -> bool_decide (key_lt y x) = negb (bool_decide (key_lt x y)).
Proof.
  destruct x as [[x1 x2] x3], y as [[y1 y2] y3]. intros Hne.
  assert (x1 <> y1 \/ x2 <> y2 \/ x3 <> y3) as Hd.
  { destruct (Z.eq_dec x1 y1), (Z.eq_dec x2 y2), (Z.eq_dec x3 y3);
      subst; auto; now destruct Hne. }
  destruct (bool_decide_reflect (key_lt (x1, x2, x3) (y1, y2, y3))) as [H|H];
    cbn; [apply bool_decide_eq_false | apply bool_decide_eq_true];
    unfold key_lt in *; cbn in *; lia.
Qed.

Lemma lt_method (a b : t) :
  __lt__ (V := Version.t) a (Semantic b)
  = if triple_ne (major a, minor a, patch a) (major b, minor b, patch b)
    then Ok (Bool (triple_lt (major a, minor a, patch a) (major b, minor b, patch b)))
    else let* c := _compare_pre_release (pre_release a) (pre_release b) in
         Ok (Bool (c <? 0)).
Proof. reflexivity. Qed.

Lemma lt_method_on_distinct_keys (a b : t) :
  key a <> key b ->
  __lt__ (V := Version.t) a (Semantic b)
  = Ok (Bool (bool_decide (key_lt (key a) (key b)))).
Proof.
  intros Hne. rewrite lt_method, triple_ne_key, triple_lt_key.
  now rewrite bool_decide_eq_false_2.
Qed.

(** X7. Two semantic versions that differ in (major, minor, patch) are
    ordered by that triple alone, lexicographically; the pre-release
    strings are not looked at, nothing is raised, and the six operators
    agree with one another. *)
Theorem distinct_keys_decide (a b : t) :
  key a <> key b ->
  let below := bool_decide (key_lt (key a) (key b)) in
  Operators.lt (Semantic a) (Semantic b) = Ok below
  /\ Operators.le (Semantic a) (Semantic b) = Ok below
  /\ Operators.gt (Semantic a) (Semantic b) = Ok (negb below)
  /\ Operators.ge (Semantic a) (Semantic b) = Ok (negb below)
  /\ Operators.lt (Semantic b) (Semantic a) = Ok (negb below)
  /\ Operators.eq (Semantic a) (Semantic b) = Ok false
  /\ Operators.ne (Semantic a) (Semantic b) = Ok true.
Proof.
  intros Hne below.
  destruct (semantic_operators a b _ (lt_method_on_distinct_keys a b Hne))
    as (Heq & Hn & Hlt & Hle & Hgt & Hge).
  assert (Hba : key b <> key a) by congruence.
  destruct (semantic_operators b a _ (lt_method_on_distinct_keys b a Hba))
    as (_ & _ & Hlt' & _).
  rewrite (bool_decide_eq_false_2 _ Hne) in *. cbn in *.
  rewrite orb_false_r in Hle. rewrite andb_true_r in Hgt.
  rewrite (key_lt_total _ _ Hne) in Hlt'.
  repeat split; assumption.
Qed.

Lemma distinct_keys_decide_witness :
  Operators.lt (Semantic (mk 1 2 3 (Some "rc.1") None))
               (Semantic (mk 1 10 0 (Some "alpha") None)) = Ok true
  /\ Operators.le (Semantic (mk 1 2 3 (Some "rc.1") None))
                  (Semantic (mk 1 10 0 (Some "alpha") None)) = Ok true
  /\ Operators.gt (Semantic (mk 1 2 3 (Some "rc.1") None))
                  (Semantic (mk 1 10 0 (Some "alpha") None)) = Ok false
  /\ Operators.ge (Semantic (mk 1 2 3 (Some "rc.1") None))
                  (Semantic (mk 1 10 0 (Some "alpha") None)) = Ok false
  /\ Operators.lt (Semantic (mk 1 10 0 (Some "alpha") None))
                  (Semantic (mk 1 2 3 (Some "rc.1") None)) = Ok false
  /\ Operators.eq (Semantic (mk 1 2 3 (Some "rc.1") None))
                  (Semantic (mk 1 10 0 (Some "alpha") None)) = Ok false
  /\ Operators.ne (Semantic (mk 1 2 3 (Some "rc.1") None))
                  (Semantic (mk 1 10 0 (Some "alpha") None)) = Ok true.
Proof.
  apply (distinct_keys_decide (mk 1 2 3 (Some "rc.1") None)
                              (mk 1 10 0 (Some "alpha") None)).
  discriminate.
Defined.

(** X8. On versions without a pre-release the six operators form one
    total order, the lexicographic order of (major, minor, patch). *)
Theorem releases_are_totally_ordered (a b : t) :
  pre_release a = None -> pre_release b = None ->
  Operators.lt (Semantic a) (Semantic b) = Ok (bool_decide (key_lt (key a) (key b)))
  /\ Operators.eq (Semantic a) (Semantic b) = Ok (bool_decide (key a = key b))
  /\ Operators.gt (Semantic a) (Semantic b) = Operators.lt (Semantic b) (Semantic a)
  /\ Operators.le (Semantic a) (Semantic b) = Operators.ge (Semantic b) (Semantic a)
  /\ Operators.ge (Semantic a) (Semantic b) = Operators.le (Semantic b) (Semantic a)
  /\ Operators.ne (Semantic a) (Semantic b) = Ok (negb (bool_decide (key a = key b))).
Proof.
  intros Ha Hb.
  assert (Hm : forall x y : t, pre_release x = None -> pre_release y = None ->
            __lt__ (V := Version.t) x (Semantic y)
            = Ok (Bool (bool_decide (key_lt (key x) (key y))))).
  { intros x y Hx Hy. rewrite lt_method, triple_ne_key, triple_lt_key, Hx, Hy.
    destruct (bool_decide_reflect (key x = key y)) as [Hk|Hk]; cbn; [|reflexivity].
    do 2 f_equal. symmetry. apply bool_decide_eq_false.
    rewrite Hk. unfold key_lt. lia. }
  destruct (semantic_operators a b _ (Hm a b Ha Hb)) as (Heq & Hn & Hlt & Hle & Hgt & Hge).
  destruct (semantic_operators b a _ (Hm b a Hb Ha)) as (_ & _ & Hlt' & Hle' & _ & Hge').
  rewrite Heq, Hn, Hlt, Hle, Hgt, Hge, Hlt', Hle', Hge', Ha, Hb.
  rewrite !(bool_decide_eq_true_2 (@None string = None)) by reflexivity.
  rewrite !andb_true_r.
  destruct (bool_decide_reflect (key a = key b)) as [Hk|Hk].
  - rewrite (bool_decide_eq_true_2 (key b = key a)) by congruence.
    rewrite Hk. rewrite (bool_decide_eq_false_2 (key_lt (key b) (key b)))
      by (unfold key_lt; lia).
    repeat split.
  - rewrite (bool_decide_eq_false_2 (key b = key a)) by congruence.
    rewrite (key_lt_total _ _ Hk).
    destruct (bool_decide (key_lt (key a) (key b))); repeat split.
Qed.

Lemma releases_are_totally_ordered_witness :
  Operators.lt (Semantic (mk 1 2 3 None None)) (Semantic (mk 1 10 0 None (Some "b7")))
    = Ok true
  /\ Operators.eq (Semantic (mk 1 2 3 None None)) (Semantic (mk 1 10 0 None (Some "b7")))
    = Ok false
  /\ Operators.gt (Semantic (mk 1 2 3 None None)) (Semantic (mk 1 10 0 None (Some "b7")))
    = Operators.lt (Semantic (mk 1 10 0 None (Some "b7"))) (Semantic (mk 1 2 3 None None))
  /\ Operators.le (Semantic (mk 1 2 3 None None)) (Semantic (mk 1 10 0 None (Some "b7")))
    = Operators.ge (Semantic (mk 1 10 0 None (Some "b7"))) (Semantic (mk 1 2 3 None None))
  /\ Operators.ge (Semantic (mk 1 2 3 None None)) (Semantic (mk 1 10 0 None (Some "b7")))
    = Operators.le (Semantic (mk 1 10 0 None (Some "b7"))) (Semantic (mk 1 2 3 None None))
  /\ Operators.ne (Semantic (mk 1 2 3 None None)) (Semantic (mk 1 10 0 None (Some "b7")))
    = Ok true.
Proof.
  apply (releases_are_totally_ordered (mk 1 2 3 None None) (mk 1 10 0 None (Some "b7")));
    reflexivity.
Defined.

End SemanticOrder.

(** ** [SemanticVersion]: pre-release tokens *)

Section PreReleaseTokens.

Import SemanticVersion.

Lemma split_nonempty (sep : ascii) (s : string) : split sep s <> [].
Proof.
  destruct s as [|c s]; simpl; [discriminate|].
  destruct (Ascii.eqb c sep); [discriminate|].
  destruct (split sep s); discriminate.
Qed.

Lemma split_app (x y : string) :
  split "." (x +:+ String "." y) = (split "." x ++ split "." y)%list.
Proof.
  induction x as [|c x IH]; [reflexivity|]. rewrite app_cons. simpl.
  rewrite IH. destruct (Ascii.eqb c "."); [reflexivity|].
  pose proof (split_nonempty "." x). now destruct (split "." x).
Qed.

Lemma zip_app_r {A : Type} (l l' : list A) : zip l (l ++ l')%list = zip l l.
Proof. induction l as [|x l IH]; [reflexivity|]. simpl. now f_equal. Qed.

Lemma zip_app_l {A : Type} (l l' : list A) : zip (l ++ l')%list l = zip l l.
Proof. induction l as [|x l IH]; simpl; [now destruct l'|]. now f_equal. Qed.

Lemma lt_method_on_equal_keys (a b : t) :
  key a = key b ->
  __lt__ (V := Version.t) a (Semantic b)
  = let* c := _compare_pre_release (pre_release a) (pre_release b) in
    Ok (Bool (c <? 0)).
Proof.
  intros Hk. rewrite lt_method, triple_ne_key.
  now rewrite bool_decide_eq_true_2.
Qed.

(** When [__lt__] raises, so do the four orderings. *)
Lemma semantic_operators_raise (a b : t) (e : exn) :
  __lt__ (V := Version.t) a (Semantic b) = Raise e ->
  Operators.lt (Semantic a) (Semantic b) = Raise e
  /\ Operators.le (Semantic a) (Semantic b) = Raise e
  /\ Operators.gt (Semantic a) (Semantic b) = Raise e
  /\ Operators.ge (Semantic a) (Semantic b) = Raise e.
Proof.
  intros Hlt.
  unfold Operators.lt, Operators.le, Operators.gt, Operators.ge,
    Operators.binary, Operators.__lt__, Operators.__le__, Operators.__gt__,
    Operators.__ge__, Operators._le_from_lt, Operators._gt_from_lt,
    Operators._ge_from_lt.
  rewrite !Hlt. repeat split.
Qed.

(** X9. With equal (major, minor, patch), a pre-release whose tokens are
    a proper prefix of the other's is the lower one, and nothing is
    raised whatever the tokens are. *)
Theorem shorter_prefix_is_below (a b : t) (x y : string) :
  key a = key b ->
  pre_release a = Some x -> pre_release b = Some (x +:+ "." +:+ y) ->
  Operators.lt (Semantic a) (Semantic b) = Ok true
  /\ Operators.le (Semantic a) (Semantic b) = Ok true
  /\ Operators.gt (Semantic a) (Semantic b) = Ok false
  /\ Operators.ge (Semantic a) (Semantic b) = Ok false
  /\ Operators.lt (Semantic b) (Semantic a) = Ok false.
Proof.
  intros Hk Ha Hb.
  assert (Hlen : (0 < length (split "." y))%nat).
  { pose proof (split_nonempty "." y). destruct (split "." y); [done|simpl; lia]. }
  assert (Hab : __lt__ (V := Version.t) a (Semantic b) = Ok (Bool true)).
  { rewrite (lt_method_on_equal_keys a b Hk), Ha, Hb. simpl.
    rewrite dot_app, split_app, zip_app_r, compare_tokens_same. simpl.
    do 2 f_equal. rewrite length_app. apply Z.ltb_lt. lia. }
  assert (Hba : __lt__ (V := Version.t) b (Semantic a) = Ok (Bool false)).
  { rewrite (lt_method_on_equal_keys b a (eq_sym Hk)), Ha, Hb. simpl.
    rewrite dot_app, split_app, zip_app_l, compare_tokens_same. simpl.
    do 2 f_equal. rewrite length_app. apply Z.ltb_ge. lia. }
  destruct (semantic_operators a b _ Hab) as (_ & _ & Hlt & Hle & Hgt & Hge).
  destruct (semantic_operators b a _ Hba) as (_ & _ & Hlt' & _).
  repeat split; assumption.
Qed.

Lemma shorter_prefix_is_below_witness :
  Operators.lt (Semantic (mk 1 0 0 (Some "rc.x") None))
               (Semantic (mk 1 0 0 (Some "rc.x.2") None)) = Ok true
  /\ Operators.le (Semantic (mk 1 0 0 (Some "rc.x") None))
                  (Semantic (mk 1 0 0 (Some "rc.x.2") None)) = Ok true
  /\ Operators.gt (Semantic (mk 1 0 0 (Some "rc.x") None))
                  (Semantic (mk 1 0 0 (Some "rc.x.2") None)) = Ok false
  /\ Operators.ge (Semantic (mk 1 0 0 (Some "rc.x") None))
                  (Semantic (mk 1 0 0 (Some "rc.x.2") None)) = Ok false
  /\ Operators.lt (Semantic (mk 1 0 0 (Some "rc.x.2") None))
                  (Semantic (mk 1 0 0 (Some "rc.x") None)) = Ok false.
Proof.
  apply (shorter_prefix_is_below (mk 1 0 0 (Some "rc.x") None)
           (mk 1 0 0 (Some "rc.x.2") None) "rc.x" "2"); reflexivity.
Defined.

(** X10. Two pre-releases that are one run of digits each are compared as
    numbers, not as text. *)
Theorem numeric_pre_releases_compare_by_value (a b : t) (x y : string) :
  key a = key b ->
  pre_release a = Some x -> pre_release b = Some y ->
  isdigit x = true -> isdigit y = true ->
  exists m n : Z,
    int_of_str x = Ok m /\ int_of_str y = Ok n
    /\ Operators.lt (Semantic a) (Semantic b) = Ok (m <? n)
    /\ Operators.ge (Semantic a) (Semantic b) = Ok (n <=? m).
Proof.
  intros Hk Ha Hb Hx Hy.
  destruct (int_of_digits x Hx) as (dx & _ & Hm).
  destruct (int_of_digits y Hy) as (dy & _ & Hn).
  exists (Z.of_uint dx), (Z.of_uint dy). split; [exact Hm|]. split; [exact Hn|].
  assert (Hab : __lt__ (V := Version.t) a (Semantic b)
                = Ok (Bool (Z.of_uint dx <? Z.of_uint dy))).
  { rewrite (lt_method_on_equal_keys a b Hk), Ha, Hb. simpl.
    pose proof Hx as [_ Hx']%andb_prop. pose proof Hy as [_ Hy']%andb_prop.
    rewrite !split_dot_free by now apply digits_dot_free. simpl.
    unfold token_of. rewrite Hx, Hy, Hm, Hn. simpl.
    now destruct (Z.of_uint dx <? Z.of_uint dy). }
  destruct (semantic_operators a b _ Hab) as (_ & _ & Hlt & _ & _ & Hge).
  split; [exact Hlt|]. rewrite Hge. f_equal.
  now rewrite Z.ltb_antisym, negb_involutive.
Qed.

Lemma numeric_pre_releases_compare_by_value_witness :
  exists m n : Z,
    int_of_str "2" = Ok m /\ int_of_str "10" = Ok n
    /\ Operators.lt (Semantic (mk 1 0 0 (Some "2") None))
                    (Semantic (mk 1 0 0 (Some "10") None)) = Ok (m <? n)
    /\ Operators.ge (Semantic (mk 1 0 0 (Some "2") None))
                    (Semantic (mk 1 0 0 (Some "10") None)) = Ok (n <=? m).
Proof.
  apply (numeric_pre_releases_compare_by_value
           (mk 1 0 0 (Some "2") None) (mk 1 0 0 (Some "10") None) "2" "10");
    reflexivity.
Defined.

(** X11. When the first token of one pre-release is a run of digits and
    the first token of the other is written in ASCII and is no run of
    digits, every ordering between the two versions raises [TypeError],
    in both directions. *)
Theorem number_against_word_raises (a b : t) (pa pb x y : string)
    (ta tb : list string) :
  key a = key b ->
  pre_release a = Some pa -> pre_release b = Some pb ->
  split "." pa = x :: ta -> split "." pb = y :: tb ->
  isdigit x = true -> ascii_text y = true -> isdigit y = false ->
  Operators.lt (Semantic a) (Semantic b) = Raise TypeError
  /\ Operators.le (Semantic a) (Semantic b) = Raise TypeError
  /\ Operators.gt (Semantic a) (Semantic b) = Raise TypeError
  /\ Operators.ge (Semantic a) (Semantic b) = Raise TypeError
  /\ Operators.lt (Semantic b) (Semantic a) = Raise TypeError.
Proof.
  intros Hk Ha Hb Hpa Hpb Hx _ Hy.
  destruct (int_of_digits x Hx) as (dx & _ & Hm).
  assert (Hab : __lt__ (V := Version.t) a (Semantic b) = Raise TypeError).
  { rewrite (lt_method_on_equal_keys a b Hk), Ha, Hb. simpl.
    rewrite Hpa, Hpb. simpl. unfold token_of. now rewrite Hx, Hy, Hm. }
  assert (Hba : __lt__ (V := Version.t) b (Semantic a) = Raise TypeError).
  { rewrite (lt_method_on_equal_keys b a (eq_sym Hk)), Ha, Hb. simpl.
    rewrite Hpa, Hpb. simpl. unfold token_of. now rewrite Hx, Hy, Hm. }
  destruct (semantic_operators_raise a b _ Hab) as (Hlt & Hle & Hgt & Hge).
  destruct (semantic_operators_raise b a _ Hba) as (Hlt' & _).
  repeat split; assumption.
Qed.

Lemma number_against_word_raises_witness :
  Operators.lt (Semantic (mk 1 0 0 (Some "1.x") None))
               (Semantic (mk 1 0 0 (Some "beta") None)) = Raise TypeError
  /\ Operators.le (Semantic (mk 1 0 0 (Some "1.x") None))
                  (Semantic (mk 1 0 0 (Some "beta") None)) = Raise TypeError
  /\ Operators.gt (Semantic (mk 1 0 0 (Some "1.x") None))
                  (Semantic (mk 1 0 0 (Some "beta") None)) = Raise TypeError
  /\ Operators.ge (Semantic (mk 1 0 0 (Some "1.x") None))
                  (Semantic (mk 1 0 0 (Some "beta") None)) = Raise TypeError
  /\ Operators.lt (Semantic (mk 1 0 0 (Some "beta") None))
                  (Semantic (mk 1 0 0 (Some "1.x") None)) = Raise TypeError.
Proof.
  apply (number_against_word_raises (mk 1 0 0 (Some "1.x") None)
           (mk 1 0 0 (Some "beta") None) "1.x" "beta" "1" "beta" ["x"] []);
    reflexivity.
Defined.

End PreReleaseTokens.

(** ** [SEMVER_REGEX] and the grammar of version texts *)

Section Grammar.

Import Re SemanticVersion.

Lemma star_takes (cls : ascii -> bool) (ds rest : string) (k : cont)
    (pos : nat) (caps found : captures) :
  all_in cls ds = true -> none_ahead cls rest = true ->
  k (pos + String.length ds)%nat rest caps = Some found ->
  star cls k pos (ds +:+ rest) caps = Some found.
Proof.
  revert pos. induction ds as [|c ds IH]; intros pos Hds Hrest Hk.
  - simpl in Hk. rewrite Nat.add_0_r in Hk.
    destruct rest as [|c rest]; [exact Hk|]. simpl in Hrest |- *.
    now destruct (cls c).
  - simpl in Hds. apply andb_prop in Hds as [Hc Hds].
    rewrite app_cons. simpl. rewrite Hc.
    rewrite (IH (S pos) Hds Hrest); [reflexivity|].
    simpl in Hk. now rewrite Nat.add_succ_r in Hk.
Qed.

Lemma named_plus_takes_label (name l rest : string) (k : cont) (pos : nat)
    (caps found : captures) :
  label l = true -> none_ahead word_dot_dash rest = true ->
  k (pos + String.length l)%nat rest (<[name := l]> caps) = Some found ->
  run (Named name (Plus word_dot_dash)) k pos (l +:+ rest) caps = Some found.
Proof.
  unfold label. intros [Hne Hl]%andb_prop Hrest Hk.
  destruct l as [|c l]; [discriminate|].
  simpl in Hl. apply andb_prop in Hl as [Hc Hl].
  rewrite app_cons.
  change (run (Named name (Plus word_dot_dash)) k pos (String c (l +:+ rest)) caps)
    with (if word_dot_dash c
          then star word_dot_dash
                 (fun pos' rest' caps' =>
                    k pos' rest'
                      (<[name := String.substring 0 (pos' - pos)
                                   (String c l +:+ rest)]> caps'))
                 (S pos) (l +:+ rest) caps
          else None).
  rewrite Hc. apply star_takes; [assumption..|].
  simpl in Hk. rewrite Nat.add_succ_r in Hk.
  replace (S pos + String.length l - pos)%nat
    with (String.length (String c l)) by (simpl; lia).
  now rewrite (substring_app_l (String c l) rest).
Qed.

Lemma run_opt_skipped (c : ascii) (q : pattern) (k : cont) (pos : nat)
    (rest : string) (caps : captures) :
  none_ahead (Ascii.eqb c) rest = true ->
  run (Opt (Group (Seq (Lit c) q))) k pos rest caps = k pos rest caps.
Proof.
  intros Hrest. simpl. destruct rest as [|c' rest]; [reflexivity|].
  simpl in Hrest. rewrite Ascii.eqb_sym. now destruct (Ascii.eqb c c').
Qed.

Lemma line_end_inv (tail : string) :
  line_end tail = true -> tail = EmptyString \/ tail = String "010" EmptyString.
Proof.
  destruct tail as [|c [|c' tail]]; simpl; auto.
  - destruct (Ascii.eqb_spec c "010") as [->|Hc]; [auto|].
    destruct c as [[] [] [] [] [] [] [] []]; try discriminate; now destruct Hc.
  - destruct c as [[] [] [] [] [] [] [] []]; discriminate.
Qed.

(** Every text of the grammar is matched, each group capturing its part. *)
Lemma match_semver_text (M m : string) (p pre meta : option string)
    (tail : string) :
  numeral M = true -> numeral m = true -> if_some numeral p = true ->
  if_some label pre = true -> if_some label meta = true ->
  line_end tail = true ->
  match_ SEMVER_REGEX (semver_text M m p pre meta tail)
  = Some (semver_captures M m p pre meta).
Proof.
  intros HM Hm Hp Hpre Hmeta [-> | ->]%line_end_inv;
    unfold match_, SEMVER_REGEX, semver_text, semver_captures;
    (rewrite run_seq; change (run Bol ?k 0%nat ?s ?c) with (k 0%nat s c);
     rewrite run_seq; apply named_number_takes_numeral; [done..|];
     rewrite run_seq, run_lit;
     rewrite run_seq; apply named_number_takes_numeral;
       [done | now destruct p, pre, meta |];
     rewrite run_seq;
     destruct p as [p|]; simpl part; simpl put;
       [ apply run_opt_taken; rewrite run_seq, run_lit;
         apply named_number_takes_numeral; [done | now destruct pre, meta |]
       | rewrite run_opt_skipped by now destruct pre, meta ];
     rewrite run_seq;
     (destruct pre as [pre|]; simpl part; simpl put;
       [ apply run_opt_taken; rewrite run_seq, run_lit;
         apply named_plus_takes_label; [done | now destruct meta |]
       | rewrite run_opt_skipped by now destruct meta ]);
     rewrite run_seq;
     (destruct meta as [meta|]; simpl part; simpl put;
       [ apply run_opt_taken; rewrite run_seq, run_lit;
         apply named_plus_takes_label; [done | done |]
       | rewrite run_opt_skipped by done ]);
     reflexivity).
Qed.

(** *** The converse: what a successful match says about the subject *)

Lemma star_inv (cls : ascii -> bool) (k : cont) (s : string) (pos : nat)
    (caps found : captures) :
  star cls k pos s caps = Some found ->
  exists ds rest,
    s = ds +:+ rest /\ all_in cls ds = true
    /\ k (pos + String.length ds)%nat rest caps = Some found.
Proof.
  revert pos. induction s as [|c s IH]; intros pos H.
  - exists EmptyString, EmptyString. simpl in *. now rewrite Nat.add_0_r.
  - simpl in H. destruct (cls c) eqn:Hc.
    + destruct (star cls k (S pos) s caps) as [f|] eqn:Hstar.
      * injection H as ->. destruct (IH _ Hstar) as (ds & rest & -> & Hds & Hk).
        exists (String c ds), rest. simpl. rewrite Hc, Hds, Nat.add_succ_r.
        now rewrite app_cons.
      * exists EmptyString, (String c s). simpl. now rewrite Nat.add_0_r.
    + exists EmptyString, (String c s). simpl. now rewrite Nat.add_0_r.
Qed.

Lemma all_in_digit (s : string) : all_in digit s = all_digits s.
Proof. induction s as [|c s IH]; [reflexivity|]. simpl. now rewrite IH. Qed.

Lemma lit_inv (c : ascii) (k : cont) (s : string) (pos : nat)
    (caps found : captures) :
  run (Lit c) k pos s caps = Some found ->
  exists rest, s = String c rest /\ k (S pos) rest caps = Some found.
Proof.
  simpl. destruct s as [|c' s]; [discriminate|].
  destruct (Ascii.eqb_spec c' c) as [->|]; [eauto|discriminate].
Qed.

Lemma number_inv (k : cont) (s : string) (pos : nat) (caps found : captures) :
  run number k pos s caps = Some found ->
  exists n rest,
    s = n +:+ rest /\ numeral n = true
    /\ k (pos + String.length n)%nat rest caps = Some found.
Proof.
  unfold number.
  change (run (Alt ?p ?q) k pos s caps)
    with (match run p k pos s caps with
          | Some f => Some f
          | None => run q k pos s caps
          end).
  destruct (run (Lit "0") k pos s caps) as [f|] eqn:Hzero.
  - intros [= ->]. apply lit_inv in Hzero as (rest & -> & Hk).
    exists "0", rest. repeat split. simpl. now rewrite Nat.add_1_r.
  - rewrite run_seq. simpl. destruct s as [|c s]; [discriminate|].
    destruct (nonzero_digit c) eqn:Hc; [|discriminate].
    intros (ds & rest & -> & Hds & Hk)%star_inv.
    exists (String c ds), rest. rewrite app_cons. split; [reflexivity|].
    rewrite all_in_digit in Hds. simpl. rewrite Hc, Hds.
    split; [|now rewrite Nat.add_succ_r].
    destruct (Ascii.eqb_spec c "0") as [->|]; [discriminate|reflexivity].
Qed.

Lemma named_number_inv (name : string) (k : cont) (s : string) (pos : nat)
    (caps found : captures) :
  run (Named name number) k pos s caps = Some found ->
  exists n rest,
    s = n +:+ rest /\ numeral n = true
    /\ k (pos + String.length n)%nat rest (<[name := n]> caps) = Some found.
Proof.
  change (run (Named name number) k pos s caps)
    with (run number
            (fun pos' rest' caps' =>
               k pos' rest' (<[name := String.substring 0 (pos' - pos) s]> caps'))
            pos s caps).
  intros (n & rest & -> & Hn & Hk)%number_inv. exists n, rest.
  repeat split; [assumption|].
  replace (pos + String.length n - pos)%nat with (String.length n) in Hk by lia.
  now rewrite substring_app_l in Hk.
Qed.

Lemma named_plus_inv (name : string) (k : cont) (s : string) (pos : nat)
    (caps found : captures) :
  run (Named name (Plus word_dot_dash)) k pos s caps = Some found ->
  exists l rest,
    s = l +:+ rest /\ label l = true
    /\ k (pos + String.length l)%nat rest (<[name := l]> caps) = Some found.
Proof.
  destruct s as [|c s]; [discriminate|].
  change (run (Named name (Plus word_dot_dash)) k pos (String c s) caps)
    with (if word_dot_dash c
          then star word_dot_dash
                 (fun pos' rest' caps' =>
                    k pos' rest'
                      (<[name := String.substring 0 (pos' - pos) (String c s)]> caps'))
                 (S pos) s caps
          else None).
  destruct (word_dot_dash c) eqn:Hc; [|discriminate].
  intros (ds & rest & -> & Hds & Hk)%star_inv.
  exists (String c ds), rest. rewrite app_cons. split; [reflexivity|].
  unfold label. simpl. rewrite Hc, Hds. split; [reflexivity|].
  replace (S pos + String.length ds - pos)%nat
    with (String.length (String c ds)) in Hk by (simpl; lia).
  change (String c (ds +:+ rest)) with (String c ds +:+ rest) in Hk.
  rewrite substring_app_l in Hk. simpl. now rewrite Nat.add_succ_r.
Qed.

(** An optional marked group either took its mark and its part, or left
    the subject to what follows. *)
Lemma opt_inv (c : ascii) (q : pattern) (k : cont) (s : string) (pos : nat)
    (caps found : captures) :
  run (Opt (Group (Seq (Lit c) q))) k pos s caps = Some found ->
  (exists rest, s = String c rest /\ run q k (S pos) rest caps = Some found)
  \/ k pos s caps = Some found.
Proof.
  change (run (Opt (Group (Seq (Lit c) q))) k pos s caps)
    with (match run (Lit c) (run q k) pos s caps with
          | Some f => Some f
          | None => k pos s caps
          end).
  destruct (run (Lit c) (run q k) pos s caps) as [f|] eqn:Hrun; [|auto].
  intros [= ->]. left. now apply lit_inv in Hrun.
Qed.

Lemma eol_inv (s : string) (pos : nat) (caps found : captures) :
  run Eol (fun _ _ caps' => Some caps') pos s caps = Some found ->
  line_end s = true /\ found = caps.
Proof.
  simpl. destruct s as [|c [|c' s]]; simpl.
  - now intros [= ->].
  - destruct c as [[] [] [] [] [] [] [] []]; try discriminate. now intros [= ->].
  - destruct c as [[] [] [] [] [] [] [] []]; discriminate.
Qed.

Lemma build_part_inv (s : string) (pos : nat) (caps found : captures) :
  run (Seq (Opt (Group (Seq (Lit "+")
                          (Named "build_metadata" (Plus word_dot_dash)))))
           Eol)
      (fun _ _ caps' => Some caps') pos s caps = Some found ->
  exists meta tail,
    if_some label meta = true /\ line_end tail = true
    /\ s = part "+" meta tail /\ found = put "build_metadata" meta caps.
Proof.
  rewrite run_seq. intros [(rest & -> & H) | H]%opt_inv.
  - apply named_plus_inv in H as (l & tail & -> & Hl & H).
    apply eol_inv in H as [Htail ->]. now exists (Some l), tail.
  - apply eol_inv in H as [Htail ->]. now exists None, s.
Qed.

Lemma pre_release_part_inv (s : string) (pos : nat) (caps found : captures) :
  run (Seq (Opt (Group (Seq (Lit "-")
                          (Named "pre_release" (Plus word_dot_dash)))))
        (Seq (Opt (Group (Seq (Lit "+")
                            (Named "build_metadata" (Plus word_dot_dash)))))
             Eol))
      (fun _ _ caps' => Some caps') pos s caps = Some found ->
  exists pre meta tail,
    if_some label pre = true /\ if_some label meta = true
    /\ line_end tail = true
    /\ s = part "-" pre (part "+" meta tail)
    /\ found = put "build_metadata" meta (put "pre_release" pre caps).
Proof.
  rewrite run_seq. intros [(rest & -> & H) | H]%opt_inv.
  - apply named_plus_inv in H as (l & rest' & -> & Hl & H).
    apply build_part_inv in H as (meta & tail & Hmeta & Htail & -> & ->).
    now exists (Some l), meta, tail.
  - apply build_part_inv in H as (meta & tail & Hmeta & Htail & -> & ->).
    now exists None, meta, tail.
Qed.

(** Whatever [SEMVER_REGEX] matches is a text of the grammar, and the
    groups hold its parts. *)
Lemma match_inv (s : string) (found : captures) :
  match_ SEMVER_REGEX s = Some found ->
  exists M m p pre meta tail,
    numeral M = true /\ numeral m = true /\ if_some numeral p = true
    /\ if_some label pre = true /\ if_some label meta = true
    /\ line_end tail = true
    /\ s = semver_text M m p pre meta tail
    /\ found = semver_captures M m p pre meta.
Proof.
  unfold match_, SEMVER_REGEX, semver_text, semver_captures.
  rewrite run_seq. change (run Bol ?k 0%nat ?s ?c) with (k 0%nat s c).
  rewrite run_seq. intros (M & rest & -> & HM & H)%named_number_inv.
  rewrite run_seq in H. apply lit_inv in H as (rest' & -> & H).
  rewrite run_seq in H. apply named_number_inv in H as (m & rest & -> & Hm & H).
  rewrite run_seq in H. apply opt_inv in H as [(rest' & -> & H) | H].
  - apply named_number_inv in H as (p & rest & -> & Hp & H).
    apply pre_release_part_inv in H
      as (pre & meta & tail & Hpre & Hmeta & Htail & -> & ->).
    now exists M, m, (Some p), pre, meta, tail.
  - apply pre_release_part_inv in H
      as (pre & meta & tail & Hpre & Hmeta & Htail & -> & ->).
    now exists M, m, None, pre, meta, tail.
Qed.

End Grammar.

(** ** [SemanticVersion.parse_version] *)

Section ParseVersion.

Import Re SemanticVersion.

Lemma str_app_assoc (x y z : string) : (x +:+ y) +:+ z = x +:+ (y +:+ z).
Proof.
  induction x as [|c x IH]; [reflexivity|]. now rewrite !app_cons, IH.
Qed.

Lemma part_tail (mark : ascii) (x : option string) (rest tail : string) :
  part mark x (rest +:+ tail) = part mark x rest +:+ tail.
Proof.
  destruct x as [l|]; [|reflexivity]. simpl.
  now rewrite app_cons, str_app_assoc.
Qed.

Lemma semver_text_tail (M m : string) (p pre meta : option string)
    (tail : string) :
  semver_text M m p pre meta tail
  = semver_text M m p pre meta EmptyString +:+ tail.
Proof.
  unfold semver_text.
  rewrite str_app_assoc, app_cons, str_app_assoc. do 3 f_equal.
  rewrite <- !part_tail. reflexivity.
Qed.

(** What [parse_version] reads in the groups of a grammar text. *)
Lemma groups_of_semver_text (M m : string) (p pre meta : option string) :
  let groups := groupdict SEMVER_REGEX (semver_captures M m p pre meta) in
  dict_getitem groups "major" = Ok (Some M)
  /\ dict_getitem groups "minor" = Ok (Some m)
  /\ dict_get groups "patch" (Some "0") = p
  /\ dict_get groups "pre_release" None = pre
  /\ dict_get groups "build_metadata" None = meta.
Proof.
  destruct p, pre, meta; repeat split; vm_compute; reflexivity.
Qed.

Lemma parse_semver_text (M m : string) (p pre meta : option string)
    (tail : string) (a b : Z) :
  numeral M = true -> numeral m = true -> if_some numeral p = true ->
  if_some label pre = true -> if_some label meta = true ->
  line_end tail = true ->
  int_of_str M = Ok a -> int_of_str m = Ok b ->
  parse_version (semver_text M m p pre meta tail)
  = let* c := int_of p in Ok (mk a b c pre meta).
Proof.
  intros HM Hm Hp Hpre Hmeta Htail Ha Hb. unfold parse_version.
  rewrite (match_semver_text M m p pre meta tail) by assumption.
  destruct (groups_of_semver_text M m p pre meta) as (-> & -> & -> & -> & ->).
  unfold init. simpl. now rewrite Ha, Hb.
Qed.

Lemma render_parsed (a b c : Z) (pre meta : option string) :
  if_some label pre = true -> if_some label meta = true ->
  __str__ (mk a b c pre meta)
  = semver_text (str_of_int a) (str_of_int b) (Some (str_of_int c)) pre meta
      EmptyString.
Proof.
  intros Hpre Hmeta. unfold __str__, semver_text, if_given. simpl.
  destruct pre as [pre|], meta as [meta|]; simpl in *;
    repeat match goal with
      | H : label ?l = true |- _ =>
          apply andb_prop in H as [H _]; rewrite H; clear H
      end;
    rewrite ?str_app_assoc, ?dot_app, ?app_cons, ?str_app_assoc, ?app_empty_r;
    reflexivity.
Qed.

(** X12. Every text [MAJOR.MINOR.PATCH[-PRERELEASE][+BUILD]], with or
    without a final newline, parses; the version holds the parts, and
    renders as the text without the newline. *)
Theorem full_form_parses_and_renders_back (M m p : string)
    (pre meta : option string) (tail : string) :
  numeral M = true -> numeral m = true -> numeral p = true ->
  if_some label pre = true -> if_some label meta = true ->
  line_end tail = true ->
  exists v,
    parse_version (semver_text M m (Some p) pre meta tail) = Ok v
    /\ str_of_int (major v) = M /\ str_of_int (minor v) = m
    /\ str_of_int (patch v) = p
    /\ pre_release v = pre /\ build_metadata v = meta
    /\ __str__ v = semver_text M m (Some p) pre meta EmptyString.
Proof.
  intros HM Hm Hp Hpre Hmeta Htail.
  destruct (str_of_int_of_numeral M HM) as (a & Ha & _ & Sa).
  destruct (str_of_int_of_numeral m Hm) as (b & Hb & _ & Sb).
  destruct (str_of_int_of_numeral p Hp) as (c & Hc & _ & Sc).
  exists (mk a b c pre meta).
  rewrite (parse_semver_text M m (Some p) pre meta tail a b) by assumption.
  simpl. rewrite Hc. simpl. repeat split; try assumption.
  rewrite render_parsed by assumption. now rewrite Sa, Sb, Sc.
Qed.

Lemma full_form_parses_and_renders_back_witness :
  exists v,
    parse_version "1.20.3-rc.1+build-7" = Ok v
    /\ str_of_int (major v) = "1" /\ str_of_int (minor v) = "20"
    /\ str_of_int (patch v) = "3"
    /\ pre_release v = Some "rc.1" /\ build_metadata v = Some "build-7"
    /\ __str__ v = "1.20.3-rc.1+build-7".
Proof.
  apply (full_form_parses_and_renders_back "1" "20" "3" (Some "rc.1")
           (Some "build-7") EmptyString); reflexivity.
Defined.

Lemma parse_version_shape (s : string) (v : t) :
  parse_version s = Ok v ->
  exists tail,
    line_end tail = true /\ s = __str__ v +:+ tail
    /\ 0 <= major v /\ 0 <= minor v /\ 0 <= patch v
    /\ if_some label (pre_release v) = true
    /\ if_some label (build_metadata v) = true.
Proof.
  unfold parse_version.
  destruct (match_ SEMVER_REGEX s) as [found|] eqn:Hmatch; [|discriminate].
  destruct (match_inv s found Hmatch)
    as (M & m & p & pre & meta & tail & HM & Hm & Hp & Hpre & Hmeta & Htail & -> & ->).
  destruct (groups_of_semver_text M m p pre meta) as (-> & -> & -> & -> & ->).
  destruct (str_of_int_of_numeral M HM) as (a & Ha & Ha0 & Sa).
  destruct (str_of_int_of_numeral m Hm) as (b & Hb & Hb0 & Sb).
  unfold init. simpl. rewrite Ha, Hb. simpl.
  destruct p as [p|]; [|discriminate]. simpl in Hp |- *.
  destruct (str_of_int_of_numeral p Hp) as (c & Hc & Hc0 & Sc).
  rewrite Hc. simpl. intros [= <-]. exists tail.
  rewrite render_parsed by assumption. rewrite Sa, Sb, Sc. simpl.
  repeat split; try assumption. apply semver_text_tail.
Qed.

(** X13. A text written in ASCII that [parse_version] accepts is the
    rendering of the version it returns, followed by nothing or by one
    newline; the three numbers are not negative and a pre-release or a
    build label, when there is one, is a non-empty run of [[\w.-]]. *)
Theorem parsed_version_renders_its_source (s : string) (v : t) :
  ascii_text s = true ->
  parse_version s = Ok v ->
  exists tail,
    line_end tail = true /\ s = __str__ v +:+ tail
    /\ 0 <= major v /\ 0 <= minor v /\ 0 <= patch v
    /\ if_some label (pre_release v) = true
    /\ if_some label (build_metadata v) = true.
Proof. intros _. exact (parse_version_shape s v). Qed.

Lemma parsed_version_renders_its_source_witness :
  exists tail,
    line_end tail = true
    /\ "10.0.1-beta" +:+ String "010" EmptyString
       = __str__ (mk 10 0 1 (Some "beta") None) +:+ tail
    /\ 0 <= major (mk 10 0 1 (Some "beta") None)
    /\ 0 <= minor (mk 10 0 1 (Some "beta") None)
    /\ 0 <= patch (mk 10 0 1 (Some "beta") None)
    /\ if_some label (pre_release (mk 10 0 1 (Some "beta") None)) = true
    /\ if_some label (build_metadata (mk 10 0 1 (Some "beta") None)) = true.
Proof.
  apply (parsed_version_renders_its_source
           ("10.0.1-beta" +:+ String "010" EmptyString)
           (mk 10 0 1 (Some "beta") None)).
  - reflexivity.
  - vm_compute. reflexivity.
Defined.

Lemma parse_version_type_error (s : string) :
  parse_version s = Raise TypeError <->
  exists M m pre meta tail,
    numeral M = true /\ numeral m = true
    /\ if_some label pre = true /\ if_some label meta = true
    /\ line_end tail = true /\ s = semver_text M m None pre meta tail.
Proof.
  split.
  - unfold parse_version.
    destruct (match_ SEMVER_REGEX s) as [found|] eqn:Hmatch; [|discriminate].
    destruct (match_inv s found Hmatch)
      as (M & m & p & pre & meta & tail & HM & Hm & Hp & Hpre & Hmeta & Htail & -> & ->).
    destruct (groups_of_semver_text M m p pre meta) as (-> & -> & -> & -> & ->).
    destruct (str_of_int_of_numeral M HM) as (a & Ha & _).
    destruct (str_of_int_of_numeral m Hm) as (b & Hb & _).
    unfold init. simpl. rewrite Ha, Hb. simpl.
    destruct p as [p|].
    + simpl in Hp. destruct (str_of_int_of_numeral p Hp) as (c & Hc & _).
      simpl. now rewrite Hc.
    + intros _. now exists M, m, pre, meta, tail.
  - intros (M & m & pre & meta & tail & HM & Hm & Hpre & Hmeta & Htail & ->).
    destruct (str_of_int_of_numeral M HM) as (a & Ha & _).
    destruct (str_of_int_of_numeral m Hm) as (b & Hb & _).
    now rewrite (parse_semver_text M m None pre meta tail a b).
Qed.

(** X14. On a text written in ASCII, [parse_version] ends in [TypeError]
    exactly on the texts of the grammar that have no patch,
    [MAJOR.MINOR[-PRERELEASE][+BUILD]] with or without a final newline. *)
Theorem type_error_iff_patch_is_missing (s : string) :
  ascii_text s = true ->
  (parse_version s = Raise TypeError <->
   exists M m pre meta tail,
     numeral M = true /\ numeral m = true
     /\ if_some label pre = true /\ if_some label meta = true
     /\ line_end tail = true /\ s = semver_text M m None pre meta tail).
Proof. intros _. exact (parse_version_type_error s). Qed.

Lemma type_error_iff_patch_is_missing_witness :
  parse_version "1.0-rc" = Raise TypeError <->
  exists M m pre meta tail,
    numeral M = true /\ numeral m = true
    /\ if_some label pre = true /\ if_some label meta = true
    /\ line_end tail = true /\ "1.0-rc" = semver_text M m None pre meta tail.
Proof. apply (type_error_iff_patch_is_missing "1.0-rc"). reflexivity. Defined.

Lemma parse_version_errors (s : string) :
  (parse_version s = Raise ValueError <->
   ~ exists M m p pre meta tail,
       numeral M = true /\ numeral m = true /\ if_some numeral p = true
       /\ if_some label pre = true /\ if_some label meta = true
       /\ line_end tail = true /\ s = semver_text M m p pre meta tail)
  /\ (forall e, parse_version s = Raise e -> e = ValueError \/ e = TypeError).
Proof.
  assert (Hin : forall M m p pre meta tail,
    numeral M = true -> numeral m = true -> if_some numeral p = true ->
    if_some label pre = true -> if_some label meta = true ->
    line_end tail = true ->
    (exists v, parse_version (semver_text M m p pre meta tail) = Ok v)
    \/ parse_version (semver_text M m p pre meta tail) = Raise TypeError).
  { intros M m p pre meta tail HM Hm Hp Hpre Hmeta Htail.
    destruct (str_of_int_of_numeral M HM) as (a & Ha & _).
    destruct (str_of_int_of_numeral m Hm) as (b & Hb & _).
    rewrite (parse_semver_text M m p pre meta tail a b) by assumption.
    destruct p as [p|]; [|now right]. simpl in Hp.
    destruct (str_of_int_of_numeral p Hp) as (c & Hc & _).
    left. simpl. rewrite Hc. simpl. eauto. }
  assert (Hout : match_ SEMVER_REGEX s = None -> parse_version s = Raise ValueError).
  { unfold parse_version. now intros ->. }
  destruct (match_ SEMVER_REGEX s) as [found|] eqn:Hmatch.
  - destruct (match_inv s found Hmatch)
      as (M & m & p & pre & meta & tail & HM & Hm & Hp & Hpre & Hmeta & Htail & -> & _).
    destruct (Hin M m p pre meta tail HM Hm Hp Hpre Hmeta Htail) as [[v Hv]|Hv];
      rewrite Hv; (split; [split|]).
    + discriminate.
    + intros Hno. exfalso. apply Hno. now exists M, m, p, pre, meta, tail.
    + discriminate.
    + discriminate.
    + intros Hno. exfalso. apply Hno. now exists M, m, p, pre, meta, tail.
    + intros e [= <-]. now right.
  - rewrite (Hout eq_refl). split; [split|].
    + intros _ (M & m & p & pre & meta & tail & HM & Hm & Hp & Hpre & Hmeta & Htail & ->).
      now rewrite match_semver_text in Hmatch.
    + reflexivity.
    + intros e [= <-]. now left.
Qed.

(** X15. On a text written in ASCII, [parse_version] ends in [ValueError]
    exactly when the text is none of the grammar, and it raises nothing
    but [ValueError] and [TypeError]. *)
Theorem value_error_iff_outside_the_grammar (s : string) :
  ascii_text s = true ->
  (parse_version s = Raise ValueError <->
   ~ exists M m p pre meta tail,
       numeral M = true /\ numeral m = true /\ if_some numeral p = true
       /\ if_some label pre = true /\ if_some label meta = true
       /\ line_end tail = true /\ s = semver_text M m p pre meta tail)
  /\ (forall e, parse_version s = Raise e -> e = ValueError \/ e = TypeError).
Proof. intros _. exact (parse_version_errors s). Qed.

Lemma value_error_iff_outside_the_grammar_witness :
  (parse_version "v1.0.0" = Raise ValueError <->
   ~ exists M m p pre meta tail,
       numeral M = true /\ numeral m = true /\ if_some numeral p = true
       /\ if_some label pre = true /\ if_some label meta = true
       /\ line_end tail = true /\ "v1.0.0" = semver_text M m p pre meta tail)
  /\ (forall e, parse_version "v1.0.0" = Raise e -> e = ValueError \/ e = TypeError).
Proof. apply (value_error_iff_outside_the_grammar "v1.0.0"). reflexivity. Defined.

End ParseVersion.

(** ** The [Version] of [scripts/version.py] *)

Section ScriptVersion.

Import Scripts.Version.

Lemma split_inv (s x : string) (rest : list string) :
  split "." s = x :: rest ->
  dot_free x = true
  /\ (rest = [] /\ s = x
      \/ exists s', s = x +:+ String "." s' /\ split "." s' = rest).
Proof.
  revert x rest. induction s as [|c s IH]; intros x rest; simpl.
  - intros [= <- <-]. auto.
  - destruct (Ascii.eqb_spec c ".") as [->|Hc].
    + intros [= <- <-]. split; [reflexivity|]. right. now exists s.
    + destruct (split "." s) as [|piece pieces] eqn:Hs.
      { now destruct (split_nonempty "." s). }
      intros [= <- <-]. destruct (IH piece pieces eq_refl) as [Hfree Hcase].
      split.
      * simpl. rewrite Hfree, andb_true_r. now apply negb_true_iff, Ascii.eqb_neq.
      * destruct Hcase as [[-> ->] | (s' & -> & Hs')]; [now left|].
        right. exists s'. now rewrite app_cons.
Qed.

Lemma isdigit_dot_free (s : string) : isdigit s = true -> dot_free s = true.
Proof. intros [_ Hs]%andb_prop. now apply digits_dot_free. Qed.

Lemma split_three (M m p : string) :
  dot_free M = true -> dot_free m = true -> dot_free p = true ->
  split "." (M +:+ "." +:+ m +:+ "." +:+ p) = [M; m; p].
Proof.
  intros HM Hm Hp. now rewrite !dot_app, !split_app_dot, split_dot_free.
Qed.

Lemma init_on_three_runs (M m p : string) (a b c : Z) :
  isdigit M = true -> isdigit m = true -> isdigit p = true ->
  int_of_str M = Ok a -> int_of_str m = Ok b -> int_of_str p = Ok c ->
  init (M +:+ "." +:+ m +:+ "." +:+ p) = Ok (mk a b c).
Proof.
  intros HM Hm Hp Ha Hb Hc. unfold init.
  rewrite split_three by now apply isdigit_dot_free.
  simpl. now rewrite HM, Hm, Hp, Ha, Hb, Hc.
Qed.

Lemma isdigit_value (s : string) :
  isdigit s = true -> exists n, int_of_str s = Ok n /\ 0 <= n.
Proof.
  intros Hs. destruct (int_of_digits s Hs) as (d & _ & ->).
  eexists. split; [reflexivity|]. unfold Z.of_uint. lia.
Qed.

Lemma int_of_str_error (s : string) (e : exn) :
  int_of_str s = Raise e -> e = ValueError.
Proof.
  unfold int_of_str.
  match goal with |- match ?x with _ => _ end = _ -> _ => destruct x end;
    now intros [= <-].
Qed.

Lemma map_int_error (parts : list string) (e : exn) :
  map_int parts = Raise e -> e = ValueError.
Proof.
  induction parts as [|part parts IH]; [discriminate|]. simpl.
  destruct (int_of_str part) eqn:Hpart; simpl.
  - destruct (map_int parts); simpl; [discriminate|]. intros [= <-]. now apply IH.
  - intros [= <-]. now apply int_of_str_error in Hpart.
Qed.

Lemma init_spec (s : string) :
  (forall v : t,
      init s = Ok v <->
      exists M m p,
        isdigit M = true /\ isdigit m = true /\ isdigit p = true
        /\ s = M +:+ "." +:+ m +:+ "." +:+ p
        /\ int_of_str M = Ok (major v) /\ int_of_str m = Ok (minor v)
        /\ int_of_str p = Ok (patch v) /\ not_negative v)
  /\ (forall e, init s = Raise e -> e = ValueError).
Proof.
  split.
  - intros v. split.
    + unfold init.
      destruct (split "." s) as [|M [|m [|p [|q parts]]]] eqn:Hs; try discriminate.
      simpl. destruct (isdigit M) eqn:HM; [|discriminate].
      destruct (isdigit m) eqn:Hm; [|discriminate].
      destruct (isdigit p) eqn:Hp; [|discriminate]. simpl.
      destruct (isdigit_value M HM) as (a & Ha & Ha0).
      destruct (isdigit_value m Hm) as (b & Hb & Hb0).
      destruct (isdigit_value p Hp) as (c & Hc & Hc0).
      rewrite Ha, Hb, Hc. simpl. intros [= <-].
      exists M, m, p. repeat split; try assumption.
      apply split_inv in Hs as [_ [[[=] _] | (s1 & -> & Hs1)]].
      apply split_inv in Hs1 as [_ [[[=] _] | (s2 & -> & Hs2)]].
      apply split_inv in Hs2 as [_ [[_ ->] | (s3 & -> & Hs3)]]; [reflexivity|].
      now destruct (split_nonempty "." s3).
    + intros (M & m & p & HM & Hm & Hp & -> & Ha & Hb & Hc & _).
      rewrite (init_on_three_runs M m p _ _ _ HM Hm Hp Ha Hb Hc). now destruct v.
  - intros e. unfold init.
    destruct (negb _ || negb _); [now intros [= <-]|].
    destruct (map_int (split "." s)) as [values|e'] eqn:Hvalues; simpl.
    + destruct values as [|a [|b [|c [|d values]]]]; try discriminate;
        now intros [= <-].
    + intros [= <-]. now apply map_int_error in Hvalues.
Qed.

(** X16. Among the texts written in ASCII, the constructor accepts exactly
    the ones made of three runs of digits separated by dots; the
    attributes are the values of the runs, none is negative, and every
    other such text ends in [ValueError]. *)
Theorem init_accepts_three_runs_of_digits (s : string) :
  ascii_text s = true ->
  (forall v : t,
      init s = Ok v <->
      exists M m p,
        isdigit M = true /\ isdigit m = true /\ isdigit p = true
        /\ s = M +:+ "." +:+ m +:+ "." +:+ p
        /\ int_of_str M = Ok (major v) /\ int_of_str m = Ok (minor v)
        /\ int_of_str p = Ok (patch v) /\ not_negative v)
  /\ (forall e, init s = Raise e -> e = ValueError).
Proof. intros _. exact (init_spec s). Qed.

Lemma init_accepts_three_runs_of_digits_witness :
  (forall v : t,
      init "1.02.3" = Ok v <->
      exists M m p,
        isdigit M = true /\ isdigit m = true /\ isdigit p = true
        /\ "1.02.3" = M +:+ "." +:+ m +:+ "." +:+ p
        /\ int_of_str M = Ok (major v) /\ int_of_str m = Ok (minor v)
        /\ int_of_str p = Ok (patch v) /\ not_negative v)
  /\ (forall e, init "1.02.3" = Raise e -> e = ValueError).
Proof. apply (init_accepts_three_runs_of_digits "1.02.3"). reflexivity. Defined.

Lemma str_of_nonneg_isdigit (n : Z) : 0 <= n -> isdigit (str_of_int n) = true.
Proof.
  intros Hn. unfold str_of_int.
  destruct (Z.to_int n) as [d|d] eqn:Hd.
  - assert (d <> Decimal.Nil) by (apply (to_uint_nonnil n); auto).
    simpl. replace (NilZero.string_of_uint d) with (NilEmpty.string_of_uint d)
      by (now destruct d).
    now apply string_of_uint_isdigit.
  - destruct n; simpl in Hd; try discriminate. lia.
Qed.

Lemma init_str_fixed_point (v : t) :
  not_negative v -> init (__str__ v) = Ok v.
Proof.
  intros (Ha & Hb & Hc). unfold __str__.
  rewrite (init_on_three_runs _ _ _ (major v) (minor v) (patch v));
    try (now apply str_of_nonneg_isdigit); try apply int_of_str_of_int.
  now destruct v.
Qed.

(** X17. Rendering a version whose attributes are not negative and
    constructing a version from the rendering gives the version back. *)
Theorem init_of_str_round_trip (v : t) :
  not_negative v -> init (__str__ v) = Ok v.
Proof. exact (init_str_fixed_point v). Qed.

Lemma init_of_str_round_trip_witness :
  init (__str__ (mk 3 0 12)) = Ok (mk 3 0 12).
Proof.
  apply (init_of_str_round_trip (mk 3 0 12)). unfold not_negative. simpl. lia.
Defined.

Lemma lt_attributes (a b : t) :
  __lt__ a b = bool_decide (key_lt (attributes a) (attributes b)).
Proof.
  destruct a as [a1 a2 a3], b as [b1 b2 b3].
  unfold __lt__, SemanticVersion.triple_lt, attributes, key_lt. cbn.
  destruct (Z.eqb_spec a1 b1), (Z.eqb_spec a2 b2);
    cbn; destruct (Z.ltb_spec a1 b1), (Z.ltb_spec a2 b2), (Z.ltb_spec a3 b3);
    symmetry; try (apply bool_decide_eq_true; lia);
    apply bool_decide_eq_false; lia.
Qed.

Lemma eq_attributes (a b : t) : __eq__ a b = bool_decide (a = b).
Proof.
  destruct a as [a1 a2 a3], b as [b1 b2 b3]. unfold __eq__. cbn.
  destruct (bool_decide_reflect (mk a1 a2 a3 = mk b1 b2 b3)) as [[= -> -> ->]|Hne].
  - now rewrite !Z.eqb_refl.
  - apply not_true_is_false. intros H.
    rewrite !andb_true_iff, !Z.eqb_eq in H. destruct H as ((-> & ->) & ->).
    now apply Hne.
Qed.

Lemma comparison_methods_agree (a b : t) :
  __lt__ a b = bool_decide (key_lt (attributes a) (attributes b))
  /\ __eq__ a b = bool_decide (a = b)
  /\ __gt__ a b = __lt__ b a
  /\ __ge__ a b = __le__ b a
  /\ (__lt__ a b = true /\ __eq__ a b = false /\ __gt__ a b = false
      \/ __lt__ a b = false /\ __eq__ a b = true /\ __gt__ a b = false
      \/ __lt__ a b = false /\ __eq__ a b = false /\ __gt__ a b = true).
Proof.
  unfold __gt__, __ge__, __le__.
  rewrite !lt_attributes, !eq_attributes.
  destruct (decide (a = b)) as [<-|Hne].
  - rewrite (bool_decide_eq_true_2 (a = a)) by reflexivity.
    rewrite (bool_decide_eq_false_2 (key_lt (attributes a) (attributes a)))
      by (unfold key_lt; lia).
    repeat split. right. left. repeat split.
  - assert (Hattr : attributes a <> attributes b).
    { intros H. apply Hne. destruct a, b. now injection H as -> -> ->. }
    rewrite (bool_decide_eq_false_2 (a = b)) by assumption.
    rewrite (bool_decide_eq_false_2 (b = a)) by congruence.
    rewrite (key_lt_total _ _ Hattr).
    destruct (bool_decide (key_lt (attributes a) (attributes b)));
      repeat split; auto.
Qed.

(** X18. The five comparison methods describe one total order, the
    lexicographic order of (major, minor, patch): [<] is that order,
    [==] is equality of the three attributes, [>] and [>=] are [<] and
    [<=] with the operands exchanged, and exactly one of [<], [==], [>]
    holds. *)
Theorem script_versions_are_totally_ordered (a b : t) :
  __lt__ a b = bool_decide (key_lt (attributes a) (attributes b))
  /\ __eq__ a b = bool_decide (a = b)
  /\ __gt__ a b = __lt__ b a
  /\ __ge__ a b = __le__ b a
  /\ (__lt__ a b = true /\ __eq__ a b = false /\ __gt__ a b = false
      \/ __lt__ a b = false /\ __eq__ a b = true /\ __gt__ a b = false
      \/ __lt__ a b = false /\ __eq__ a b = false /\ __gt__ a b = true).
Proof. exact (comparison_methods_agree a b). Qed.

(** X19. [increment] knows the three parts ["major"], ["minor"] and
    ["patch"]; for them the new state is strictly above the old one and
    keeps attributes that were not negative; any other part ends in
    [ValueError], the object untouched. *)
Theorem increment_moves_up (v : t) (part : string) :
  match increment v part with
  | Ok v' =>
      part ∈ ["major"; "minor"; "patch"]
      /\ __lt__ v v' = true /\ __gt__ v' v = true /\ __eq__ v v' = false
      /\ (not_negative v -> not_negative v' /\ init (__str__ v') = Ok v')
  | Raise e => e = ValueError /\ part ∉ ["major"; "minor"; "patch"]
  end.
Proof.
  assert (Hup : forall v' : t,
    key_lt (attributes v) (attributes v') ->
    (not_negative v -> not_negative v') ->
    __lt__ v v' = true /\ __gt__ v' v = true /\ __eq__ v v' = false
    /\ (not_negative v -> not_negative v' /\ init (__str__ v') = Ok v')).
  { intros v' Hlt Hnn.
    destruct (comparison_methods_agree v' v) as (_ & _ & Hgt & _).
    rewrite Hgt, lt_attributes, eq_attributes.
    rewrite (bool_decide_eq_true_2 _ Hlt).
    split; [reflexivity|]. split; [reflexivity|]. split.
    - apply bool_decide_eq_false. intros <-. unfold key_lt in Hlt. lia.
    - intros Hv. split; [now apply Hnn|].
      apply init_str_fixed_point. now apply Hnn. }
  unfold increment.
  destruct (String.eqb_spec part "major") as [->|Hmajor].
  { split; [repeat constructor|].
    apply Hup; unfold key_lt, not_negative; cbn; lia. }
  destruct (String.eqb_spec part "minor") as [->|Hminor].
  { split; [repeat constructor|].
    apply Hup; unfold key_lt, not_negative; cbn; lia. }
  destruct (String.eqb_spec part "patch") as [->|Hpatch].
  { split; [repeat constructor|].
    apply Hup; unfold key_lt, not_negative; cbn; lia. }
  split; [reflexivity|].
  rewrite !elem_of_cons, elem_of_nil. tauto.
Qed.

End ScriptVersion.

(** ** The readers of the property files *)

Section XmlReaders.

Lemma step_tags (name : string) (nodes : list ET.Element) :
  Forall (fun e => ET.tag e = name) (ET.step name nodes).
Proof.
  unfold ET.step. apply Forall_forall. intros e He%list_elem_of_In.
  apply in_flat_map in He as (node & _ & He).
  apply filter_In in He as [_ He]. now apply String.eqb_eq.
Qed.

Lemma fold_same_tag (name : string) (elements : list ET.Element)
    (container : gmap string (option string)) :
  Forall (fun e => ET.tag e = name) elements ->
  foldl (fun c e => <[ET.tag e := ET.text e]> c) container elements
  = match last elements with
    | Some e => <[name := ET.text e]> container
    | None => container
    end.
Proof.
  induction elements as [|e elements IH] using rev_ind; intros Htags.
  - reflexivity.
  - apply Forall_app in Htags as [Htags [He _]%Forall_cons].
    rewrite foldl_app, last_snoc. simpl. rewrite (IH Htags), He.
    destruct (last elements); [apply insert_insert_eq | reflexivity].
Qed.

(** X20. [parse_build_props] files every element under the element's own
    tag, and the elements it visits are the [PropertyGroup] children of
    the root: the dictionary has no key but ["PropertyGroup"], bound to
    the text of the last such child. *)
Theorem build_props_has_one_key (root : ET.Element) :
  PropsParser.parse_build_props root
  = match last (ET.iterfind root "PropertyGroup") with
    | Some e => {["PropertyGroup" := ET.text e]}
    | None => ∅
    end
  /\ forall key, key <> "PropertyGroup" ->
       PropsParser.parse_build_props root !! key = None.
Proof.
  assert (Hfold : PropsParser.parse_build_props root
    = match last (ET.iterfind root "PropertyGroup") with
      | Some e => {["PropertyGroup" := ET.text e]}
      | None => ∅
      end).
  { unfold PropsParser.parse_build_props.
    rewrite (fold_same_tag "PropertyGroup"); [|apply step_tags].
    now destruct (last _). }
  split; [exact Hfold|]. intros key Hkey. rewrite Hfold.
  destruct (last _); [|apply lookup_empty].
  now apply lookup_singleton_ne.
Qed.

(** X21. [parse_packages_props] gives the empty dictionary when the
    document has no [ItemGroup/PackageVersion] element, and raises on the
    first such element otherwise: [KeyError] when it has no [Version],
    else the [MalformedVersionError] of [Version.parse]. *)
Theorem packages_props_only_succeeds_when_empty (root : ET.Element) :
  PropsParser.parse_packages_props root
  = match ET.iterfind root "ItemGroup/PackageVersion" with
    | [] => Ok ∅
    | element :: _ =>
        match ET.attrib element !! "Version" with
        | Some _ => Raise MalformedVersionError
        | None => Raise KeyError
        end
    end.
Proof.
  unfold PropsParser.parse_packages_props.
  destruct (ET.iterfind root "ItemGroup/PackageVersion") as [|element elements];
    [reflexivity|].
  simpl. unfold ET.attrib_getitem.
  now destruct (ET.attrib element !! "Version").
Qed.

Lemma collect_packages (elements : list ET.Element) (container found : list Package.t) :
  Readers.collect elements container = Ok found ->
  exists added, found = (container ++ added)%list /\ Forall2 package_of elements added.
Proof.
  revert container. induction elements as [|e elements IH]; intros container; simpl.
  - intros [= <-]. exists []. split; [now rewrite app_nil_r|constructor].
  - unfold ET.attrib_getitem.
    destruct (ET.attrib e !! "Include") as [name|] eqn:Hname; [|discriminate].
    destruct (ET.attrib e !! "Version") as [text|] eqn:Htext; [|discriminate].
    simpl. destruct (SemanticVersion.parse_version text) as [v|] eqn:Hv;
      [|discriminate]. simpl.
    intros (added & -> & Hadded)%IH.
    exists (Package.init name v :: added). split; [now rewrite <- app_assoc|].
    constructor; [|exact Hadded].
    destruct (parse_version_shape text v Hv) as (tail & Htail & -> & _).
    repeat split; eauto.
Qed.

Lemma collect_errors (elements : list ET.Element) (container : list Package.t)
    (e : exn) :
  Readers.collect elements container = Raise e ->
  e = KeyError \/ e = ValueError \/ e = TypeError.
Proof.
  revert container. induction elements as [|el elements IH]; intros container; simpl.
  - discriminate.
  - unfold ET.attrib_getitem.
    destruct (ET.attrib el !! "Include"); [|intros [= <-]; auto].
    destruct (ET.attrib el !! "Version"); [|intros [= <-]; auto].
    simpl. destruct (SemanticVersion.parse_version s0) as [v|e'] eqn:Hv; simpl.
    + apply IH.
    + intros [= <-].
      destruct (proj2 (parse_version_errors s0) e' Hv); auto.
Qed.

(** X22. From the root of the parsed document on, with the [Version]
    attributes of its [ItemGroup/PackageVersion] elements written in
    ASCII: when the loop of [read_package_properties] ends, the list
    holds one package per such element, in document order; the package
    has the element's [Include] as name, a version that renders as the
    element's [Version] (up to a final newline), no file names and no
    dependencies.  When the loop raises, it is a [KeyError], a
    [ValueError] or a [TypeError]. *)
Theorem read_package_properties_mirrors_the_document (root : ET.Element) :
  ascii_versions (ET.iterfind root "ItemGroup/PackageVersion") = true ->
  match Readers.read_package_properties root with
  | Ok packages =>
      Forall2 package_of (ET.iterfind root "ItemGroup/PackageVersion") packages
  | Raise e => e = KeyError \/ e = ValueError \/ e = TypeError
  end.
Proof.
  intros _. unfold Readers.read_package_properties.
  destruct (Readers.collect _ []) as [packages|e] eqn:Hrun.
  - now apply collect_packages in Hrun as (added & -> & Hadded).
  - now apply collect_errors in Hrun.
Qed.

Lemma read_package_properties_mirrors_the_document_witness :
  match
    Readers.read_package_properties
      (ET.mk "Project" ∅ None
         [ET.mk "ItemGroup" ∅ None
            [ET.mk "PackageVersion"
               {["Include" := "Lib.Harmony"; "Version" := "2.3.3"]} None []]])
  with
  | Ok packages =>
      Forall2 package_of
        (ET.iterfind
           (ET.mk "Project" ∅ None
              [ET.mk "ItemGroup" ∅ None
                 [ET.mk "PackageVersion"
                    {["Include" := "Lib.Harmony"; "Version" := "2.3.3"]} None []]])
           "ItemGroup/PackageVersion")
        packages
  | Raise e => e = KeyError \/ e = ValueError \/ e = TypeError
  end.
Proof.
  apply (read_package_properties_mirrors_the_document
           (ET.mk "Project" ∅ None
              [ET.mk "ItemGroup" ∅ None
                 [ET.mk "PackageVersion"
                    {["Include" := "Lib.Harmony"; "Version" := "2.3.3"]} None []]])).
  vm_compute. reflexivity.
Defined.

End XmlReaders.

(** ** [load_metadata] *)

Section About.

Import AboutParser ModMetaData.

Lemma parse_text_raises (text : option string) :
  parse_text text = Raise MalformedVersionError.
Proof. now destruct text. Qed.

Lemma parse_texts_spec (elements : list ET.Element) :
  parse_texts elements
  = if bool_decide (elements = []) then Ok [] else Raise MalformedVersionError.
Proof.
  destruct elements as [|child elements]; [reflexivity|].
  simpl. now rewrite parse_text_raises.
Qed.

Lemma metadata_case_spec (st : locals) (element : ET.Element) :
  if carries_a_version element
  then metadata_case st element = Raise MalformedVersionError
  else exists st',
      metadata_case st element = Ok st'
      /\ version st' = version st /\ url st' = url st
      /\ (supported_versions st = [] -> supported_versions st' = [])
      /\ authors st'
         = (if String.eqb (ET.tag element) "author"
            then ET.text element :: authors st else authors st)
      /\ name st' = latest "name" element (name st)
      /\ id st' = latest "packageId" element (id st)
      /\ description st' = latest "description" element (description st).
Proof.
  destruct st as [i n v u d sv au de].
  unfold carries_a_version, metadata_case, latest.
  destruct (String.eqb_spec (ET.tag element) "name") as [->|_];
    [simpl; eexists; repeat split; auto|].
  destruct (String.eqb_spec (ET.tag element) "packageId") as [->|_];
    [simpl; eexists; repeat split; auto|].
  destruct (String.eqb_spec (ET.tag element) "author") as [->|_];
    [simpl; eexists; repeat split; auto|].
  destruct (String.eqb_spec (ET.tag element) "description") as [->|_];
    [simpl; eexists; repeat split; auto|].
  destruct (String.eqb_spec (ET.tag element) "modVersion") as [->|_];
    [simpl; now rewrite parse_text_raises|].
  destruct (String.eqb_spec (ET.tag element) "supportedVersions") as [_|_].
  { simpl. rewrite parse_texts_spec.
    destruct (bool_decide (ET.children element = [])); simpl;
      [eexists; repeat split; auto|reflexivity]. }
  simpl.
  destruct (String.eqb_spec (ET.tag element) "modDependencies") as [_|_];
    eexists; repeat split; auto.
Qed.

Lemma texts_of_snoc (name : string) (elements : list ET.Element)
    (element : ET.Element) :
  texts_of name (elements ++ [element])
  = (texts_of name elements
     ++ if String.eqb (ET.tag element) name then [ET.text element] else [])%list.
Proof.
  unfold texts_of. rewrite List.filter_app, fmap_app. simpl.
  now destruct (String.eqb (ET.tag element) name).
Qed.

Lemma fold_latest (name : string) (elements : list ET.Element)
    (old : option string) :
  foldl (fun value element => latest name element value) old elements
  = match last (texts_of name elements) with
    | Some text => text
    | None => old
    end.
Proof.
  induction elements as [|element elements IH] using rev_ind; [reflexivity|].
  rewrite foldl_app, texts_of_snoc. simpl. unfold latest at 1.
  destruct (String.eqb (ET.tag element) name).
  - now rewrite last_snoc.
  - now rewrite app_nil_r.
Qed.

Lemma metadata_loop_spec (elements : list ET.Element) (st : locals) :
  if existsb carries_a_version elements
  then metadata_loop elements st = Raise MalformedVersionError
  else exists st',
      metadata_loop elements st = Ok st'
      /\ version st' = version st /\ url st' = url st
      /\ (supported_versions st = [] -> supported_versions st' = [])
      /\ authors st' = (rev (texts_of "author" elements) ++ authors st)%list
      /\ name st'
         = foldl (fun value element => latest "name" element value)
                 (name st) elements
      /\ id st'
         = foldl (fun value element => latest "packageId" element value)
                 (id st) elements
      /\ description st'
         = foldl (fun value element => latest "description" element value)
                 (description st) elements.
Proof.
  revert st. induction elements as [|element elements IH]; intros st.
  - simpl. exists st. repeat split; auto.
  - simpl. pose proof (metadata_case_spec st element) as Hcase.
    destruct (carries_a_version element); simpl.
    + now rewrite Hcase.
    + destruct Hcase as (st1 & -> & Hv & Hu & Hs & Ha & Hn & Hi & Hd). simpl.
      specialize (IH st1). destruct (existsb carries_a_version elements); [exact IH|].
      destruct IH as (st' & -> & Hv' & Hu' & Hs' & Ha' & Hn' & Hi' & Hd').
      exists st'. rewrite Hv', Hu', Ha', Hn', Hi', Hd', Hv, Hu, Ha, Hn, Hi, Hd.
      repeat split; auto.
      unfold texts_of. simpl.
      destruct (String.eqb (ET.tag element) "author"); [|reflexivity].
      simpl. now rewrite <- List.app_assoc.
Qed.

(** X23. [load_metadata] raises [MalformedVersionError] exactly when the
    root has a [modVersion] child or a [supportedVersions] child that is
    not empty; when it returns, the version is the initial
    [Version(0, 1, 0)], there is no supported version and no url. *)
Theorem load_metadata_reads_no_version (root : ET.Element) :
  match load_metadata root with
  | Ok md =>
      Forall (fun child => carries_a_version child = false) (ET.children root)
      /\ version md = Version.mk 0 1 0 (-1)
      /\ supported_versions md = [] /\ url md = None
  | Raise e =>
      e = MalformedVersionError
      /\ Exists (fun child => carries_a_version child = true) (ET.children root)
  end.
Proof.
  unfold load_metadata.
  pose proof (metadata_loop_spec (ET.children root)
    (mk None None (Version.init 0 (Some 1) (Some 0) None) None None [] [] []))
    as Hloop.
  destruct (existsb carries_a_version (ET.children root)) eqn:Hany.
  - rewrite Hloop. split; [reflexivity|].
    apply existsb_exists in Hany as (child & Hin & Hchild).
    apply Exists_exists. exists child. split; [now apply list_elem_of_In|exact Hchild].
  - destruct Hloop as (st' & -> & Hv & Hu & Hs & _).
    split; [|now rewrite Hv, Hu, Hs].
    apply Forall_forall. intros child Hin%list_elem_of_In.
    destruct (carries_a_version child) eqn:Hchild; [|reflexivity].
    rewrite <- Hany. symmetry. apply existsb_exists. now exists child.
Qed.

(** X24. When [load_metadata] returns, the authors come out in reverse
    document order, and the name, the package id and the description
    are the texts of the last child that carries the tag ([None] without
    such a child). *)
Theorem load_metadata_keeps_the_last (root : ET.Element) (md : ModMetaData.t) :
  load_metadata root = Ok md ->
  authors md = rev (texts_of "author" (ET.children root))
  /\ name md = last_text "name" (ET.children root)
  /\ id md = last_text "packageId" (ET.children root)
  /\ description md = last_text "description" (ET.children root).
Proof.
  unfold load_metadata, last_text. intros Hrun.
  pose proof (metadata_loop_spec (ET.children root)
    (mk None None (Version.init 0 (Some 1) (Some 0) None) None None [] [] []))
    as Hloop.
  destruct (existsb carries_a_version (ET.children root)).
  - rewrite Hloop in Hrun. discriminate.
  - destruct Hloop as (st' & Hst & _ & _ & _ & Ha & Hn & Hi & Hd).
    rewrite Hst in Hrun. injection Hrun as <-.
    rewrite Ha, Hn, Hi, Hd, !fold_latest. simpl. rewrite app_nil_r.
    repeat split.
Qed.

Lemma load_metadata_keeps_the_last_witness :
  authors (mk (Some "me.mod") (Some "Mod") (Version.mk 0 1 0 (-1)) None None []
              [Some "B"; Some "A"] [])
  = rev (texts_of "author"
           [ET.mk "author" ∅ (Some "A") []; ET.mk "name" ∅ (Some "Old") [];
            ET.mk "packageId" ∅ (Some "me.mod") [];
            ET.mk "author" ∅ (Some "B") []; ET.mk "name" ∅ (Some "Mod") []])
  /\ name (mk (Some "me.mod") (Some "Mod") (Version.mk 0 1 0 (-1)) None None []
              [Some "B"; Some "A"] [])
     = last_text "name"
         [ET.mk "author" ∅ (Some "A") []; ET.mk "name" ∅ (Some "Old") [];
          ET.mk "packageId" ∅ (Some "me.mod") [];
          ET.mk "author" ∅ (Some "B") []; ET.mk "name" ∅ (Some "Mod") []]
  /\ id (mk (Some "me.mod") (Some "Mod") (Version.mk 0 1 0 (-1)) None None []
            [Some "B"; Some "A"] [])
     = last_text "packageId"
         [ET.mk "author" ∅ (Some "A") []; ET.mk "name" ∅ (Some "Old") [];
          ET.mk "packageId" ∅ (Some "me.mod") [];
          ET.mk "author" ∅ (Some "B") []; ET.mk "name" ∅ (Some "Mod") []]
  /\ description (mk (Some "me.mod") (Some "Mod") (Version.mk 0 1 0 (-1)) None
                     None [] [Some "B"; Some "A"] [])
     = last_text "description"
         [ET.mk "author" ∅ (Some "A") []; ET.mk "name" ∅ (Some "Old") [];
          ET.mk "packageId" ∅ (Some "me.mod") [];
          ET.mk "author" ∅ (Some "B") []; ET.mk "name" ∅ (Some "Mod") []].
Proof.
  apply (load_metadata_keeps_the_last
           (ET.mk "ModMetaData" ∅ None
              [ET.mk "author" ∅ (Some "A") []; ET.mk "name" ∅ (Some "Old") [];
               ET.mk "packageId" ∅ (Some "me.mod") [];
               ET.mk "author" ∅ (Some "B") []; ET.mk "name" ∅ (Some "Mod") []])
           (mk (Some "me.mod") (Some "Mod") (Version.mk 0 1 0 (-1)) None None []
               [Some "B"; Some "A"] [])).
  reflexivity.
Defined.

End About.
